(** * Inner Performance landing-page backend: scheduling and conversion reporting

    A shallow embedding of [server.js] (slot availability, the
    availability and booking handlers) and of
    [backend/controllers/conversionsController.js] with
    [backend/utils/facebookApi.js] (conversion events), followed by the
    properties established about them. *)

From Stdlib Require Import ZArith List String Ascii Bool Lia QArith.
From Stdlib Require Import Sorting.Sorted Sorting.Permutation.
From Stdlib Require Import DecimalString DecimalPos.
Import ListNotations.

Local Open Scope string_scope.
Local Open Scope Z_scope.

(* ================================================================== *)
(** ** JavaScript primitives used by the code *)
(* ================================================================== *)

Module Js.

(** A JavaScript number as the time arithmetic of [server.js] meets it:
    an integer, or [NaN].  [Number] is covered on runs of decimal
    digits, the shape of the clock strings ("16:00", "16:00:00") the
    scheduling API sends; every other string is read as [NaN]. *)
Inductive num : Type :=
| Int (z : Z)
| NaN.

Definition num_add (a b : num) : num :=
  match a, b with
  | Int x, Int y => Int (x + y)
  | _, _ => NaN
  end.

Definition num_mul (a b : num) : num :=
  match a, b with
  | Int x, Int y => Int (x * y)
  | _, _ => NaN
  end.

(** [a < b]; any comparison with [NaN] is false. *)
Definition num_lt (a b : num) : bool :=
  match a, b with
  | Int x, Int y => x <? y
  | _, _ => false
  end.

(** ToNumber of a destructured array element: a missing element is
    [undefined], which converts to [NaN]. *)
Definition ofElement (o : option num) : num :=
  match o with
  | Some n => n
  | None => NaN
  end.

Definition digitOf (c : ascii) : option Z :=
  let n := Z.of_nat (nat_of_ascii c) in
  if (48 <=? n) && (n <=? 57) then Some (n - 48) else None.

Fixpoint digitsValue (acc : Z) (s : string) : option Z :=
  match s with
  | EmptyString => Some acc
  | String c r =>
      match digitOf c with
      | Some d => digitsValue (10 * acc + d) r
      | None => None
      end
  end.

(** [Number(s)]: the empty string is 0. *)
Definition Number (s : string) : num :=
  match digitsValue 0 s with
  | Some z => Int z
  | None => NaN
  end.

(** [s.split(sep)] for a one-character separator; never empty. *)
Fixpoint split (sep : ascii) (s : string) : list string :=
  match s with
  | EmptyString => [EmptyString]
  | String c r =>
      if Ascii.eqb c sep then EmptyString :: split sep r
      else match split sep r with
           | h :: t => String c h :: t
           | [] => [String c EmptyString]
           end
  end.

(** [s.includes(sub)], case-sensitive. *)
Fixpoint includes (sub s : string) : bool :=
  String.prefix sub s ||
  match s with
  | EmptyString => false
  | String _ r => includes sub r
  end.

Definition isUpper (c : ascii) : bool :=
  let n := nat_of_ascii c in (65 <=? n)%nat && (n <=? 90)%nat.

Definition lowerChar (c : ascii) : ascii :=
  if isUpper c then ascii_of_nat (nat_of_ascii c + 32) else c.

(** [s.toLowerCase()] on ASCII letters. *)
Fixpoint toLowerCase (s : string) : string :=
  match s with
  | EmptyString => EmptyString
  | String c r => String (lowerChar c) (toLowerCase r)
  end.

Definition isSpace (c : ascii) : bool :=
  let n := nat_of_ascii c in
  (n =? 32)%nat || ((9 <=? n)%nat && (n <=? 13)%nat).

Fixpoint trimStart (s : string) : string :=
  match s with
  | EmptyString => EmptyString
  | String c r => if isSpace c then trimStart r else s
  end.

Fixpoint rev_string (acc s : string) : string :=
  match s with
  | EmptyString => acc
  | String c r => rev_string (String c acc) r
  end.

(** [s.trim()] for ASCII white space. *)
Definition trim (s : string) : string :=
  rev_string EmptyString (trimStart (rev_string EmptyString (trimStart s))).

Definition isDigit (c : ascii) : bool :=
  match digitOf c with Some _ => true | None => false end.

(** [s.replace(/\D/g, '')]. *)
Fixpoint digitsOnly (s : string) : string :=
  match s with
  | EmptyString => EmptyString
  | String c r => if isDigit c then String c (digitsOnly r) else digitsOnly r
  end.

(** [n.toString()] of an integer. *)
Definition toString (n : Z) : string :=
  NilZero.string_of_int (Z.to_int n).

(** A JSON value as it arrives in a request body.  Numbers are
    integers. *)
#[warnings="-register-all"]
Inductive json : Type :=
| JNull
| JBool (b : bool)
| JNum (n : Z)
| JStr (s : string)
| JArr (l : list json)
| JObj (fields : list (string * json)).

(** A property read: [None] is [undefined]. *)
Definition value := option json.

(** ToBoolean. *)
Definition truthy (v : value) : bool :=
  match v with
  | None => false
  | Some JNull => false
  | Some (JBool b) => b
  | Some (JNum n) => negb (n =? 0)
  | Some (JStr s) => negb (String.eqb s "")
  | Some (JArr _) => true
  | Some (JObj _) => true
  end.

Fixpoint lookup {A : Type} (k : string) (l : list (string * A)) : option A :=
  match l with
  | [] => None
  | (k', v) :: r => if String.eqb k k' then Some v else lookup k r
  end.

(** [obj[k] = v] on an object kept as its properties in insertion
    order: an existing property keeps its place. *)
Fixpoint setField {A : Type} (k : string) (v : A) (l : list (string * A))
  : list (string * A) :=
  match l with
  | [] => [(k, v)]
  | (k', v') :: r =>
      if String.eqb k k' then (k, v) :: r else (k', v') :: setField k v r
  end.

(** [a < b ? -1 : a > b ? 1 : 0] on strings: the lexicographic order
    of the code units.  It is not [localeCompare], which collates by
    locale; on zero-padded dates and clock times the two agree. *)
Definition codeUnitCompare (a b : string) : Z :=
  match String.compare a b with
  | Lt => -1
  | Eq => 0
  | Gt => 1
  end.

(** [a >= b]; any comparison with [NaN] is false. *)
Definition num_ge (a b : num) : bool :=
  match a, b with
  | Int x, Int y => y <=? x
  | _, _ => false
  end.

(** [String(n)]. *)
Definition showNum (n : num) : string :=
  match n with
  | Int z => toString z
  | NaN => "NaN"
  end.

(** [s.padStart(2, '0')]. *)
Definition padStart2 (s : string) : string :=
  match String.length s with
  | O => "00"
  | S O => "0" ++ s
  | _ => s
  end.

(** ToNumber of a configuration value that may be [undefined]. *)
Definition ofOption (o : option Z) : num :=
  match o with
  | Some z => Int z
  | None => NaN
  end.

End Js.

(* ================================================================== *)
(** ** server.js: slot availability *)
(* ================================================================== *)

Module Server.
Import Js.

(** An entry of [reserved_time] or [not_worked_time]. *)
Record interval : Type := mkInterval {
  from : string;
  to : string
}.

(** One group of the reserved-intervals answer for a date; [None] is a
    property that is missing or not an array. *)
Record intervalGroup : Type := mkGroup {
  reserved_time : option (list interval);
  not_worked_time : option (list interval)
}.

(** [timeToMinutes]. *)
Definition timeToMinutes (timeString : string) : num :=
  let parts := map Number (split ":" timeString) in
  let hours := ofElement (nth_error parts 0) in
  let minutes := ofElement (nth_error parts 1) in
  num_add (num_mul hours (Int 60)) minutes.

(** The test of both inner loops of [isTimeSlotFree]. *)
Definition conflictsWith (slotMinutes slotEndMinutes : num) (i : interval)
  : bool :=
  let reservedStart := timeToMinutes (from i) in
  let reservedEnd := timeToMinutes (to i) in
  num_lt slotMinutes reservedEnd && num_lt reservedStart slotEndMinutes.

(** An inner [for] loop: [false] is the early [return false], [true]
    is falling out of the loop. *)
Fixpoint scanIntervals (slotMinutes slotEndMinutes : num)
  (l : list interval) : bool :=
  match l with
  | [] => true
  | i :: r =>
      if conflictsWith slotMinutes slotEndMinutes i then false
      else scanIntervals slotMinutes slotEndMinutes r
  end.

Definition scanArray (slotMinutes slotEndMinutes : num)
  (a : option (list interval)) : bool :=
  match a with
  | Some l => scanIntervals slotMinutes slotEndMinutes l
  | None => true
  end.

Fixpoint scanGroups (slotMinutes slotEndMinutes : num)
  (groups : list intervalGroup) : bool :=
  match groups with
  | [] => true
  | g :: r =>
      if scanArray slotMinutes slotEndMinutes (reserved_time g) then
        if scanArray slotMinutes slotEndMinutes (not_worked_time g) then
          scanGroups slotMinutes slotEndMinutes r
        else false
      else false
  end.

(** The default value [= 55] of the [serviceDuration] parameter. *)
Definition orDefault (serviceDuration : option Z) : Z :=
  match serviceDuration with
  | Some d => d
  | None => 55
  end.

(** [isTimeSlotFree]. *)
Definition isTimeSlotFree (timeSlot : string)
  (reservedIntervals : list intervalGroup) (serviceDuration : option Z)
  : bool :=
  let slotMinutes := timeToMinutes timeSlot in
  let slotEndMinutes := num_add slotMinutes (Int (orDefault serviceDuration)) in
  scanGroups slotMinutes slotEndMinutes reservedIntervals.

(** [config.workingHours]. *)
Record workingHoursT : Type := mkWorkingHours {
  start : Q;
  end_ : Q;
  days : list string
}.

(** A slot of the availability answer; [unit_id] and [coach_name] are
    set by the handler after filtering. *)
Record slot : Type := mkSlot {
  start_time : string;
  available : bool;
  unit_id : option Z;
  coach_name : option string
}.

(** [timeHour + timeMinute / 60], in exact arithmetic; [None] is
    [NaN]. *)
Definition slotTimeOf (time : string) : option Q :=
  let parts := map Number (split ":" time) in
  match ofElement (nth_error parts 0), ofElement (nth_error parts 1) with
  | Int timeHour, Int timeMinute =>
      Some (inject_Z timeHour + inject_Z timeMinute / 60)%Q
  | _, _ => None
  end.

(** [slotTime >= workingHours.start && slotTime < workingHours.end]. *)
Definition withinWorkingHours (workingHours : workingHoursT) (time : string)
  : bool :=
  match slotTimeOf time with
  | Some slotTime =>
      Qle_bool (start workingHours) slotTime
      && negb (Qle_bool (end_ workingHours) slotTime)
  | None => false
  end.

Section Filter.

(** [new Date(date).toLocaleDateString('en-US', {weekday: 'long'})]:
    it depends on the time zone of the host. *)
Variable weekdayLong : string -> string.

(** [filterAvailableSlots]; the matrix and the reserved intervals are
    objects keyed by date, kept as their entries in the order of
    [Object.keys]. *)
Definition filterAvailableSlots
  (timeMatrix : list (string * list string))
  (reservedIntervals : list (string * list intervalGroup))
  (workingHours : workingHoursT) (serviceDuration : option Z) : list slot :=
  flat_map
    (fun entry : string * list string =>
       let date := fst entry in
       let times := snd entry in
       let dayOfWeek := weekdayLong date in
       if negb (existsb (String.eqb dayOfWeek) (days workingHours)) then []
       else
         let dayReserved :=
           match lookup date reservedIntervals with
           | Some groups => groups
           | None => []
           end in
         flat_map
           (fun time =>
              if withinWorkingHours workingHours time then
                if isTimeSlotFree time dayReserved
                     (Some (orDefault serviceDuration))
                then [mkSlot (date ++ " " ++ time) true None None]
                else []
              else [])
           times)
    timeMatrix.

End Filter.

(** Days from 1970-01-01 to a date of the Gregorian calendar. *)
Definition daysFromCivil (y m d : Z) : Z :=
  let y' := if m <=? 2 then y - 1 else y in
  let era := y' / 400 in
  let yoe := y' - era * 400 in
  let mp := (m + 9) mod 12 in
  let doy := (153 * mp + 2) / 5 + d - 1 in
  let doe := yoe * 365 + yoe / 4 - yoe / 100 + doy in
  era * 146097 + doe - 719468.

Definition weekdayNames : list string :=
  ["Sunday"; "Monday"; "Tuesday"; "Wednesday"; "Thursday"; "Friday";
   "Saturday"].

(** [weekdayLong] for an ISO date on a host at or east of Greenwich,
    such as the United Kingdom the service runs in: the weekday of the
    date read in UTC. *)
Definition weekdayLongUTC (date : string) : string :=
  match map Number (split "-" date) with
  | [Int y; Int m; Int d] =>
      if (1 <=? m) && (m <=? 12) && (1 <=? d) && (d <=? 31) then
        nth (Z.to_nat ((daysFromCivil y m d + 4) mod 7)) weekdayNames
          "Invalid Date"
      else "Invalid Date"
  | _ => "Invalid Date"
  end.

(* ------------------------------------------------------------------ *)
(** *** Upstream calls *)

(** An error as the handlers read it, a JSON-RPC error object or a
    thrown [Error]: only [message] is looked at. *)
Record errorObject : Type := mkError {
  message : option string
}.

(** A parsed JSON-RPC answer; [None] is a property that is missing or
    [null]. *)
Record response (R : Type) : Type := mkResponse {
  error : option errorObject;
  result : option R
}.
Arguments mkResponse {R} _ _.
Arguments error {R} _.
Arguments result {R} _.

(** How the promise of [makeAPIRequest] settles: resolved with the
    parsed answer, or rejected ("Request failed: ...", "Failed to parse
    response: ..."). *)
Inductive outcome (R : Type) : Type :=
| Resolved (r : response R)
| Rejected (reason : string).
Arguments Resolved {R} _.
Arguments Rejected {R} _.

(** The [result] of the [book] method. *)
Record bookingT : Type := mkBooking {
  bookingHash : value;
  booking_id : value;
  id : value
}.

(** The remote methods the two handlers call, with the JSON-RPC [id]
    and the parameters that tell the calls apart, as the handler holds
    them; the type index is the shape of [result]. *)
Inductive rpc : Type -> Type :=
| getToken : rpc string
| getUserToken : rpc string
| getStartTimeMatrix (start_date end_date service_id : value) (unitId : Z)
  : rpc (list (string * list string))
| getReservedTimeIntervals (rpc_id : Z) (dateFrom dateTo service_id unitId : value)
  : rpc (list (string * list intervalGroup))
| addClient (name email phone notes : value) : rpc json
| book (service_id unitId : value) (clientId : json)
    (startDate formattedTime : string) : rpc bookingT.

(** An asynchronous computation: it returns, throws, awaits an
    upstream call, or awaits a timer. *)
Inductive prog (A : Type) : Type :=
| Ret (a : A)
| Throw (e : errorObject)
| Call (R : Type) (c : rpc R) (k : outcome R -> prog A)
| Delay (ms : Z) (k : prog A).
Arguments Ret {A} _.
Arguments Throw {A} _.
Arguments Call {A R} _ _.
Arguments Delay {A} _ _.

Fixpoint bind {A B : Type} (p : prog A) (f : A -> prog B) : prog B :=
  match p with
  | Ret a => f a
  | Throw e => Throw e
  | Call c k => Call c (fun o => bind (k o) f)
  | Delay ms k => Delay ms (bind k f)
  end.

(** [try { p } catch (error) { handler }]. *)
Fixpoint tryCatch {A : Type} (p : prog A) (handler : errorObject -> prog A)
  : prog A :=
  match p with
  | Ret a => Ret a
  | Throw e => handler e
  | Call c k => Call c (fun o => tryCatch (k o) handler)
  | Delay ms k => Delay ms (tryCatch k handler)
  end.

Notation "x <- p ;; q" := (bind p (fun x => q))
  (at level 61, p at next level, right associativity).
Notation "p ;;; q" := (bind p (fun _ => q))
  (at level 61, right associativity).

Definition newError (msg : string) : errorObject := mkError (Some msg).

(** [await makeAPIRequest(...)]. *)
Definition makeAPIRequest {R : Type} (c : rpc R) : prog (response R) :=
  Call c (fun o =>
    match o with
    | Resolved r => Ret r
    | Rejected reason => Throw (newError reason)
    end).

(** [await new Promise(resolve => setTimeout(resolve, ms))]. *)
Definition sleep (ms : Z) : prog unit := Delay ms (Ret tt).

(** What the handler sends back. *)
Inductive httpBody : Type :=
| ErrorBody (error : string)
| SlotsBody (result : list slot)
| BookedBody (booking_id : value) (message : string) (coach_name : string)
    (unit_id : value).

Record httpResponse : Type := mkHttp {
  status : Z;
  body : httpBody
}.

(** ['...' + x] for a message that may be [undefined]. *)
Definition showMessage (m : option string) : string :=
  match m with
  | Some s => s
  | None => "undefined"
  end.

(** [config.json] as the handlers use it. *)
Record configT : Type := mkConfig {
  workingHours : workingHoursT;
  serviceDuration : option Z
}.

(* ------------------------------------------------------------------ *)
(** *** POST /api/available-slots *)

Fixpoint insertBy {A : Type} (cmp : A -> A -> option Z) (x : A) (l : list A)
  : option (list A) :=
  match l with
  | [] => Some [x]
  | y :: r =>
      match cmp x y with
      | None => None
      | Some c =>
          if c <=? 0 then Some (x :: y :: r)
          else option_map (cons y) (insertBy cmp x r)
      end
  end.

(** [array.sort(cmp)], a stable sort, here by insertion; [None] when
    the comparison function throws.  Which stable algorithm runs does
    not matter to the result on the slots of the handler (lemma
    [stable_sort_unique] below). *)
Fixpoint sortBy {A : Type} (cmp : A -> A -> option Z) (l : list A)
  : option (list A) :=
  match l with
  | [] => Some []
  | x :: r =>
      match sortBy cmp r with
      | Some sorted => insertBy cmp x sorted
      | None => None
      end
  end.

(** [const [date, time] = start_time.split(' ')]. *)
Definition dateAndTime (start_time : string) : string * option string :=
  let parts := split " " start_time in
  (hd EmptyString parts, nth_error parts 1).

(** The comparison function of the final sort.  [localeCompare] is
    the method of the host, which compares by the collation of its
    locale; [None] is the [TypeError] of calling it on [undefined]. *)
Definition compareSlots (localeCompare : string -> string -> Z)
  (a b : slot) : option Z :=
  let (dateA, timeA) := dateAndTime (start_time a) in
  let (dateB, timeB) := dateAndTime (start_time b) in
  if negb (String.eqb dateA dateB) then Some (localeCompare dateA dateB)
  else
    match timeA with
    | Some tA => Some (localeCompare tA (showMessage timeB))
    | None => None
    end.

Definition coachOf (unitId : Z) : string :=
  if unitId =? 4 then "Mason" else "Josh".

Definition allowedUnits : list Z := [4; 10].

(** [availableSlots.forEach(slot => { slot.unit_id = unitId;
    slot.coach_name = coachName })]. *)
Definition tagSlots (unitId : Z) (coachName : string)
  (availableSlots : list slot) : list slot :=
  map (fun s => mkSlot (start_time s) (available s) (Some unitId)
                  (Some coachName))
    availableSlots.

Definition orEmpty {A : Type} (o : option (list A)) : list A :=
  match o with
  | Some l => l
  | None => []
  end.

Section Handlers.

Variable weekdayLong : string -> string.

(** [a.localeCompare(b)], as the host's locale collates. *)
Variable localeCompare : string -> string -> Z.

Variable config : configT.

(** The body of the loop over [allowedUnits]: the slots the unit adds
    to [allAvailableSlots]. *)
Definition unitSlots (start_date end_date service_id : value) (publicToken
  adminToken : option string) (unitId : Z) : prog (list slot) :=
  let coachName := coachOf unitId in
  tryCatch
    (timeMatrixResult <-
       makeAPIRequest (getStartTimeMatrix start_date end_date service_id unitId) ;;
     match error timeMatrixResult with
     | Some _ => Ret []
     | None =>
         let timeMatrix := orEmpty (result timeMatrixResult) in
         reservedResult <-
           makeAPIRequest
             (getReservedTimeIntervals 4 start_date end_date service_id
                (Some (JNum unitId))) ;;
         let reservedIntervals := orEmpty (result reservedResult) in
         let availableSlots :=
           filterAvailableSlots weekdayLong timeMatrix reservedIntervals
             (workingHours config) (serviceDuration config) in
         Ret (tagSlots unitId coachName availableSlots)
     end)
    (fun _ => Ret []).

Fixpoint collectUnits (start_date end_date service_id : value)
  (publicToken adminToken : option string) (units : list Z)
  (allAvailableSlots : list slot) : prog (list slot) :=
  match units with
  | [] => Ret allAvailableSlots
  | unitId :: rest =>
      availableSlots <-
        unitSlots start_date end_date service_id publicToken adminToken unitId ;;
      collectUnits start_date end_date service_id publicToken adminToken rest
        (allAvailableSlots ++ availableSlots)
  end.

(** The "reserved times summary" loop: it only logs. *)
Fixpoint summaryLoop (start_date end_date service_id : value)
  (units : list Z) : prog unit :=
  match units with
  | [] => Ret tt
  | unitId :: rest =>
      tryCatch
        (makeAPIRequest
           (getReservedTimeIntervals 999 start_date end_date service_id
              (Some (JNum unitId))) ;;;
         Ret tt)
        (fun _ => Ret tt) ;;;
      summaryLoop start_date end_date service_id rest
  end.

Definition availableSlotsHandler (reqBody : list (string * json))
  : prog httpResponse :=
  let start_date := lookup "start_date" reqBody in
  let end_date := lookup "end_date" reqBody in
  let service_id := lookup "service_id" reqBody in
  tryCatch
    (publicTokenResult <- makeAPIRequest getToken ;;
     match error publicTokenResult with
     | Some _ => Ret (mkHttp 500 (ErrorBody "Failed to get public access token"))
     | None =>
         let publicToken := result publicTokenResult in
         adminTokenResult <- makeAPIRequest getUserToken ;;
         match error adminTokenResult with
         | Some _ =>
             Ret (mkHttp 500 (ErrorBody "Failed to get admin access token"))
         | None =>
             let adminToken := result adminTokenResult in
             allAvailableSlots <-
               collectUnits start_date end_date service_id publicToken
                 adminToken allowedUnits [] ;;
             match sortBy (compareSlots localeCompare) allAvailableSlots with
             | None =>
                 Throw (newError
                   "Cannot read properties of undefined (reading 'localeCompare')")
             | Some sorted =>
                 summaryLoop start_date end_date service_id allowedUnits ;;;
                 Ret (mkHttp 200 (SlotsBody sorted))
             end
         end
     end)
    (fun e =>
       Ret (mkHttp 500
              (ErrorBody ("Failed to fetch available slots: "
                          ++ showMessage (message e))))).

(* ------------------------------------------------------------------ *)
(** *** POST /api/book-session *)

Definition maxRetries : Z := 3.

Definition conflictResponse : httpResponse :=
  mkHttp 409 (ErrorBody "This time slot is no longer available").

(** [isTimeSlotFree(bookingTime, ...)] where [bookingTime] may be
    [undefined]: [timeToMinutes] then throws on [split]. *)
Definition checkSlot (bookingTime : option string)
  (reservedIntervals : list intervalGroup) : prog bool :=
  match bookingTime with
  | Some t => Ret (isTimeSlotFree t reservedIntervals (serviceDuration config))
  | None =>
      Throw (newError "Cannot read properties of undefined (reading 'split')")
  end.

(** [reservedResult.result?.[bookingDate] || []]. *)
Definition reservedOn (bookingDate : string)
  (reservedResult : response (list (string * list intervalGroup)))
  : list intervalGroup :=
  match result reservedResult with
  | Some byDate => orEmpty (lookup bookingDate byDate)
  | None => []
  end.

(** How one turn of the retry loop ends: a [return] out of the
    handler, a [break], or the next turn with the loop variables. *)
Inductive turn : Type :=
| Return (r : httpResponse)
| Break (bookingResult : response bookingT)
| Next (bookingResult : option (response bookingT))
    (lastError : option errorObject).

(** The wait before a retry, skipped on the last attempt. *)
Definition backoff (attempt : Z) : prog unit :=
  if attempt <? maxRetries then sleep 1000 else Ret tt.

(** [startTime.includes(':') ? startTime : `${startTime}:00`]. *)
Definition formatTime (startTime : string) : string :=
  if includes ":" startTime then startTime else startTime ++ ":00".

(** Whether [client_notes && client_notes.trim()] throws: a truthy
    value that is not a string has no [trim]. *)
Definition lacksTrim (client_notes : value) : bool :=
  match client_notes with
  | Some (JStr _) => false
  | v => truthy v
  end.

(** The [clientData] of the loop: it is built and never sent, so all
    that it does is to throw on notes without [trim]. *)
Definition prepareClientData (client_notes : value) : prog unit :=
  if lacksTrim client_notes then
    Throw (newError "client_notes.trim is not a function")
  else Ret tt.

Section Booking.

Variables (service_id finalUnitId : value) (clientId : json).
Variable client_notes : value.
Variables (start_time bookingDate : string) (bookingTime : option string).

(** The body of [for (attempt = 1; attempt <= maxRetries; attempt++)]. *)
Definition bookingAttempt (attempt : Z)
  (bookingResult : option (response bookingT))
  (lastError : option errorObject) : prog turn :=
  tryCatch
    (reservedResult <-
       makeAPIRequest
         (getReservedTimeIntervals 2 (Some (JStr bookingDate))
            (Some (JStr bookingDate)) service_id finalUnitId) ;;
     free <- checkSlot bookingTime (reservedOn bookingDate reservedResult) ;;
     if negb free then Ret (Return conflictResponse)
     else
       let (startDate, startTime) := dateAndTime start_time in
       match startTime with
       | None =>
           Throw (newError
             "Cannot read properties of undefined (reading 'includes')")
       | Some startTime =>
           let formattedTime := formatTime startTime in
           prepareClientData client_notes ;;;
           newResult <-
             makeAPIRequest
               (book service_id finalUnitId clientId startDate formattedTime) ;;
           match error newResult with
           | Some err =>
               if match message err with
                  | Some m => includes "not available" m
                  | None => false
                  end
               then Ret (Return conflictResponse)
               else
                 backoff attempt ;;;
                 Ret (Next (Some newResult) (Some err))
           | None => Ret (Break newResult)
           end
       end)
    (fun e =>
       backoff attempt ;;;
       Ret (Next bookingResult (Some e))).

(** The loop, by the number of turns left; [attempt] counts up. *)
Fixpoint bookingLoop (turnsLeft : nat) (attempt : Z)
  (bookingResult : option (response bookingT))
  (lastError : option errorObject)
  : prog (httpResponse + option (response bookingT) * option errorObject) :=
  match turnsLeft with
  | O => Ret (inr (bookingResult, lastError))
  | S turnsLeft' =>
      t <- bookingAttempt attempt bookingResult lastError ;;
      match t with
      | Return r => Ret (inl r)
      | Break newResult => Ret (inr (Some newResult, lastError))
      | Next bookingResult' lastError' =>
          bookingLoop turnsLeft' (attempt + 1) bookingResult' lastError'
      end
  end.

(** The diagnostic read after a booking; its outcome is only logged. *)
Definition verifyBooking : prog unit :=
  tryCatch
    (testReservedResult <-
       makeAPIRequest
         (getReservedTimeIntervals 999 (Some (JStr bookingDate))
            (Some (JStr bookingDate)) service_id finalUnitId) ;;
     checkSlot bookingTime (reservedOn bookingDate testReservedResult) ;;;
     Ret tt)
    (fun _ => Ret tt).

End Booking.

(** [a || b || c] on values. *)
Definition firstTruthy (a b c : value) : value :=
  if truthy a then a else if truthy b then b else c.

Definition isMason (finalUnitId : value) : bool :=
  match finalUnitId with
  | Some (JNum n) => n =? 4
  | _ => false
  end.

Definition bookSessionHandler (reqBody : list (string * json))
  : prog httpResponse :=
  tryCatch
    (let start_time := lookup "start_time" reqBody in
     let service_id := lookup "service_id" reqBody in
     let unit_id := lookup "unit_id" reqBody in
     let client_name := lookup "client_name" reqBody in
     let client_email := lookup "client_email" reqBody in
     let client_phone := lookup "client_phone" reqBody in
     let client_notes := lookup "client_notes" reqBody in
     let finalUnitId :=
       match unit_id with
       | Some (JArr l) => nth_error l 0
       | _ => unit_id
       end in
     let coachName := if isMason finalUnitId then "Mason" else "Josh" in
     if negb (truthy start_time) || negb (truthy service_id)
        || negb (truthy finalUnitId) || negb (truthy client_name)
        || negb (truthy client_email) || negb (truthy client_phone)
     then Ret (mkHttp 400 (ErrorBody "Missing required fields"))
     else
       match start_time with
       | Some (JStr startTimeString) =>
           let (bookingDate, bookingTime) := dateAndTime startTimeString in
           adminTokenResult <- makeAPIRequest getUserToken ;;
           match error adminTokenResult with
           | Some _ =>
               Ret (mkHttp 500 (ErrorBody "Failed to get admin access token"))
           | None =>
               reservedResult <-
                 makeAPIRequest
                   (getReservedTimeIntervals 2 (Some (JStr bookingDate))
                      (Some (JStr bookingDate)) service_id finalUnitId) ;;
               free <-
                 checkSlot bookingTime (reservedOn bookingDate reservedResult) ;;
               if negb free then Ret conflictResponse
               else
                 created <-
                   tryCatch
                     (clientResult <-
                        makeAPIRequest
                          (addClient client_name client_email client_phone
                             (if truthy client_notes then client_notes
                              else Some (JStr ""))) ;;
                      match result clientResult, error clientResult with
                      | Some clientId, None =>
                          if truthy (Some clientId) then Ret (inr clientId)
                          else
                            Ret (inl (mkHttp 500
                              (ErrorBody "Failed to create client: Unknown error")))
                      | _, err =>
                          Ret (inl (mkHttp 500
                            (ErrorBody
                               ("Failed to create client: "
                                ++ match err with
                                   | Some (mkError (Some m)) =>
                                       if String.eqb m "" then "Unknown error"
                                       else m
                                   | _ => "Unknown error"
                                   end))))
                      end)
                     (fun e =>
                        Ret (inl (mkHttp 500
                          (ErrorBody ("Failed to create client: "
                                      ++ showMessage (message e)))))) ;;
                 match created with
                 | inl failure => Ret failure
                 | inr clientId =>
                     exit <-
                       bookingLoop service_id finalUnitId clientId
                         client_notes startTimeString bookingDate bookingTime
                         (Z.to_nat maxRetries) 1 None None ;;
                     match exit with
                     | inl r => Ret r
                     | inr (bookingResult, lastError) =>
                         match bookingResult with
                         | None =>
                             Throw (newError
                               "Cannot read properties of null (reading 'result')")
                         | Some br =>
                             match error br with
                             | Some _ =>
                                 match lastError with
                                 | Some le =>
                                     Ret (mkHttp 500
                                       (ErrorBody ("Failed to create booking: "
                                                   ++ showMessage (message le))))
                                 | None =>
                                     Throw (newError
                                       "Cannot read properties of null (reading 'message')")
                                 end
                             | None =>
                                 match result br with
                                 | None =>
                                     Throw (newError
                                       "Cannot read properties of undefined (reading 'bookingHash')")
                                 | Some booking =>
                                     let bookingId :=
                                       firstTruthy (bookingHash booking)
                                         (booking_id booking) (id booking) in
                                     verifyBooking service_id finalUnitId
                                       bookingDate bookingTime ;;;
                                     Ret (mkHttp 200
                                       (BookedBody bookingId
                                          ("Booking confirmed with " ++ coachName
                                           ++ " for " ++ startTimeString ++ "!")
                                          coachName finalUnitId))
                                 end
                             end
                         end
                     end
                 end
           end
       | _ => Throw (newError "start_time.split is not a function")
       end)
    (fun e =>
       Ret (mkHttp 500
              (ErrorBody ("Failed to process booking: "
                          ++ showMessage (message e))))).

End Handlers.

(* ------------------------------------------------------------------ *)
(** *** The end time of a booking *)

(** The integers a double holds exactly: those up to
    [Number.MAX_SAFE_INTEGER] in size. *)
Definition safeInteger (n : num) : bool :=
  match n with
  | Int z => Z.abs z <=? 9007199254740991
  | NaN => false
  end.

(** The [endTime] the retry loop (and the debug-booking-params
    endpoint) computes from [formattedTime] and
    [config.serviceDuration]: one carry from the minutes into the
    hours.  The code computes in doubles: the model follows it where
    every number it meets is a safe integer, and is [None] elsewhere. *)
Definition bookingEndTime (formattedTime : string)
  (serviceDuration : option Z) : option string :=
  let parts := map Number (split ":" formattedTime) in
  let hour := ofElement (nth_error parts 0) in
  let minute := ofElement (nth_error parts 1) in
  let endHour := hour in
  let endMinute := num_add minute (ofOption serviceDuration) in
  let carried :=
    if num_ge endMinute (Int 60)
    then (num_add endHour (Int 1), num_add endMinute (Int (-60)))
    else (endHour, endMinute) in
  if forallb safeInteger
       [hour; minute; ofOption serviceDuration; endMinute;
        fst carried; snd carried]
  then
    Some (padStart2 (showNum (fst carried)) ++ ":"
          ++ padStart2 (showNum (snd carried)) ++ ":00")
  else None.

(* ------------------------------------------------------------------ *)
(** *** GET /api/debug-booking-verification *)

(** What the debug endpoint sends back: an error with its status, or
    the [debug_info] of a verification. *)
Inductive debugAnswer : Type :=
| DebugError (status : Z) (error : string)
| DebugInfo (date time : string) (day_reserved : list intervalGroup)
    (is_time_reserved : bool) (service_duration : option Z).

(** [!x] on a query parameter: missing or empty. *)
Definition blank (x : option string) : bool :=
  match x with
  | Some s => String.eqb s ""
  | None => true
  end.

(** The handler of [/api/debug-booking-verification]; the query holds
    strings. *)
Definition debugBookingVerification (config : configT)
  (query : list (string * string)) : prog debugAnswer :=
  tryCatch
    (let date := lookup "date" query in
     let time := lookup "time" query in
     let service_id := lookup "service_id" query in
     let unit_id := lookup "unit_id" query in
     match date, time with
     | Some date', Some time' =>
         if blank date || blank time || blank service_id || blank unit_id
         then
           Ret (DebugError 400
             "Missing required parameters: date, time, service_id, unit_id")
         else
           adminTokenResult <- makeAPIRequest getUserToken ;;
           match error adminTokenResult with
           | Some _ => Ret (DebugError 500 "Failed to get admin access token")
           | None =>
               reservedResult <-
                 makeAPIRequest
                   (getReservedTimeIntervals 2 (Some (JStr date'))
                      (Some (JStr date'))
                      (option_map JStr service_id) (option_map JStr unit_id)) ;;
               let dayReserved := reservedOn date' reservedResult in
               let isTimeReserved :=
                 negb (isTimeSlotFree time' dayReserved
                         (serviceDuration config)) in
               Ret (DebugInfo date' time' dayReserved isTimeReserved
                      (serviceDuration config))
           end
     | _, _ =>
         Ret (DebugError 400
           "Missing required parameters: date, time, service_id, unit_id")
     end)
    (fun e =>
       Ret (DebugError 500
              ("Failed to debug booking verification: "
               ++ showMessage (message e)))).

(* ------------------------------------------------------------------ *)
(** *** Running a handler against the upstream service *)

(** What a run does, in order. *)
Inductive event : Type :=
| EvCall (R : Type) (c : rpc R) (o : outcome R)
| EvDelay (ms : Z).
Arguments EvCall {R} _ _.

(** The upstream service: how the [n]-th call of a request settles. *)
Definition upstream : Type := nat -> forall R : Type, rpc R -> outcome R.

Fixpoint run {A : Type} (w : upstream) (n : nat) (p : prog A)
  : list event * (A + errorObject) :=
  match p with
  | Ret a => ([], inl a)
  | Throw e => ([], inr e)
  | Call c k =>
      let o := w n _ c in
      let (t, r) := run w (S n) (k o) in
      (EvCall c o :: t, r)
  | Delay ms k =>
      let (t, r) := run w n k in
      (EvDelay ms :: t, r)
  end.

Definition isBook (e : event) : bool :=
  match e with
  | EvCall (book _ _ _ _ _) _ => true
  | _ => false
  end.

(** The availability read that precedes a booking attempt (id 2). *)
Definition isCheck (e : event) : bool :=
  match e with
  | EvCall (getReservedTimeIntervals rpc_id _ _ _ _) _ => rpc_id =? 2
  | _ => false
  end.

End Server.

(* ================================================================== *)
(** ** backend: conversion events *)
(* ================================================================== *)

Module Conversions.
Import Js.

(** A JSON object, as serialised: a property set to [undefined] is
    absent. *)
Definition object : Type := list (string * json).

Fixpoint remove (k : string) (o : object) : object :=
  match o with
  | [] => []
  | (k', v) :: r => if String.eqb k k' then remove k r else (k', v) :: remove k r
  end.

Definition assign (k : string) (v : value) (o : object) : object :=
  match v with
  | Some j => setField k j o
  | None => remove k o
  end.

(** [{...v}]: the properties of an object; the routes validate
    [user_data], [custom_data] and the batch events to be objects when
    present. *)
Definition spread (v : value) : object :=
  match v with
  | Some (JObj fields) => fields
  | _ => []
  end.

(** [v?.k]. *)
Definition prop (v : value) (k : string) : value :=
  match v with
  | Some (JObj fields) => lookup k fields
  | _ => None
  end.

(** [a || b]. *)
Definition orElse (a b : value) : value :=
  if truthy a then a else b.

(* ------------------------------------------------------------------ *)
(** *** utils/facebookApi.js *)

Record envT : Type := mkEnv {
  FACEBOOK_PIXEL_ID : option string;
  FACEBOOK_ACCESS_TOKEN : option string;
  NODE_ENV : option string
}.

Definition configured (v : option string) : bool :=
  match v with
  | Some s => negb (String.eqb s "")
  | None => false
  end.

(** The body posted to the Conversions API. *)
Record payloadT : Type := mkPayload {
  data : list object;
  access_token : option string;
  test_event_code : option string
}.

(** How [axios.post] settles: with [response.data], or with an error
    carrying [message], [code] and, when the API answered,
    [response.data.error] as its [message] and [code] print. *)
Inductive axiosOutcome : Type :=
| AxiosOk (responseData : value)
| AxiosError (message : string) (code : option string)
    (fbError : option (string * string)).

(** [sendToFacebookAPI]: the payloads posted, and the [response.data]
    returned or the message of the error thrown. *)
Definition sendToFacebookAPI (env : envT) (ax : axiosOutcome)
  (eventPayload : payloadT) : list payloadT * (value + string) :=
  if negb (configured (FACEBOOK_PIXEL_ID env)) then
    ([], inr "Facebook Pixel ID is not configured")
  else if negb (configured (FACEBOOK_ACCESS_TOKEN env)) then
    ([], inr "Facebook Access Token is not configured")
  else
    ([eventPayload],
     match ax with
     | AxiosOk responseData => inl responseData
     | AxiosError message code (Some (fbMessage, fbCode)) =>
         inr ("Facebook API Error: " ++ fbMessage ++ " (Code: " ++ fbCode ++ ")")
     | AxiosError message code None =>
         match code with
         | Some c =>
             if String.eqb c "ECONNABORTED" then
               inr "Facebook API request timed out"
             else if String.eqb c "ENOTFOUND" then
               inr "Unable to connect to Facebook API"
             else inr message
         | None => inr message
         end
     end).

Section Hashing.

(** [crypto.createHash('sha256').update(s).digest('hex')]. *)
Variable sha256hex : string -> string.

Definition hashEmail (email : string) : string :=
  sha256hex (trim (toLowerCase email)).

Definition hashPhone (phone : string) : string :=
  sha256hex (digitsOnly phone).

Definition hashField (k : string) (hash : string -> string)
  (prepared : object) : option object :=
  match lookup k prepared with
  | Some (JStr s) =>
      if String.eqb s "" then Some prepared
      else Some (setField k (JStr (hash s)) prepared)
  | v => if truthy v then None else Some prepared
  end.

(** [prepareUserData]; [None] when [em] or [ph] is truthy and not a
    string, where the string method throws. *)
Definition prepareUserData (userData : object) : option object :=
  match hashField "em" hashEmail userData with
  | Some prepared => hashField "ph" hashPhone prepared
  | None => None
  end.

End Hashing.

(** [isValidPhone]. *)
Definition isValidPhone (phone : string) : bool :=
  let cleanPhone := digitsOnly phone in
  (7 <=? String.length cleanPhone)%nat && (String.length cleanPhone <=? 15)%nat.

(* ------------------------------------------------------------------ *)
(** *** controllers/conversionsController.js *)

Record eventRecord : Type := mkRecord {
  id : string;
  event_name : value;
  timestamp : string;
  status : string;
  response : value;
  error : option string;
  batch : bool
}.

(** The request as the controller reads it. *)
Record requestT : Type := mkRequest {
  body : object;
  referer : option string;
  user_agent : option string;
  ip : option string;
  limit : option string
}.

(** The readings of the clock and of [Math.random] behind one event
    record. *)
Record tick : Type := mkTick {
  now : Z;
  iso : string;
  random36 : string
}.

Inductive replyBody : Type :=
| EventSent (event_id : string) (facebook_response : value)
| BatchSent (count : nat) (facebook_response : value)
| Failed (error details : string)
| BadRequest (error : string)
| Stats (total successful failed : nat) (recent_events : list eventRecord).

Record reply : Type := mkReply {
  code : Z;
  content : replyBody
}.

(** What a controller call leaves behind: the list [recentEvents], the
    payloads posted upstream, and the reply. *)
Record effect : Type := mkEffect {
  recentEvents : list eventRecord;
  posted : list payloadT;
  replied : reply
}.

Definition str (o : option string) : value :=
  match o with
  | Some s => Some (JStr s)
  | None => None
  end.

Definition testCode (env : envT) : option string :=
  match NODE_ENV env with
  | Some mode => if String.eqb mode "development" then Some "TEST12345" else None
  | None => None
  end.

(** [a || b] for a header and a default. *)
Definition orString (a : option string) (b : string) : string :=
  match a with
  | Some s => if String.eqb s "" then b else s
  | None => b
  end.

(** [recentEvents.pop()]. *)
Definition pop (l : list eventRecord) : list eventRecord := removelast l.

(** The payload of [sendConversionEvent]. *)
Definition eventPayloadOf (env : envT) (req : requestT) (eventTime : Z)
  : payloadT :=
  let event_name := lookup "event_name" (body req) in
  let user_data := lookup "user_data" (body req) in
  let custom_data := lookup "custom_data" (body req) in
  mkPayload
    [ assign "custom_data"
        (Some (JObj
           (assign "content_category"
              (orElse (prop custom_data "content_category")
                 (Some (JStr "conversion")))
              (assign "content_name"
                 (orElse (prop custom_data "content_name") event_name)
                 (spread custom_data)))))
        (assign "user_data"
           (Some (JObj
              (assign "client_user_agent" (str (user_agent req))
                 (assign "client_ip_address" (str (ip req))
                    (spread user_data)))))
           (assign "event_source_url"
              (Some (JStr (orString (referer req)
                 "https://miricledev.github.io/inner-performance-lp-1/")))
              (assign "action_source" (Some (JStr "website"))
                 (assign "event_time" (Some (JNum (eventTime / 1000)))
                    (assign "event_name" event_name []))))) ]
    (FACEBOOK_ACCESS_TOKEN env)
    (testCode env).

(** [sendConversionEvent]. *)
Definition sendConversionEvent (env : envT) (ax : axiosOutcome)
  (eventTime : Z) (t : tick) (req : requestT)
  (recentEvents : list eventRecord) : effect :=
  let event_name := lookup "event_name" (body req) in
  let eventPayload := eventPayloadOf env req eventTime in
  let (sent, settled) := sendToFacebookAPI env ax eventPayload in
  match settled with
  | inl responseData =>
      let eventRecord :=
        mkRecord (toString (now t)) event_name (iso t) "success"
          responseData None false in
      let recentEvents := eventRecord :: recentEvents in
      let recentEvents :=
        if (100 <? List.length recentEvents)%nat then pop recentEvents
        else recentEvents in
      mkEffect recentEvents sent
        (mkReply 200 (EventSent (id eventRecord) responseData))
  | inr errorMessage =>
      let failedEvent :=
        mkRecord (toString (now t)) event_name (iso t) "failed"
          None (Some errorMessage) false in
      mkEffect (failedEvent :: recentEvents) sent
        (mkReply 500 (Failed "Failed to send conversion event" errorMessage))
  end.

(** One element of [batchPayload.data]. *)
Definition batchEvent (req : requestT) (eventTime : Z) (event : json)
  : object :=
  assign "user_data"
    (Some (JObj
       (assign "client_user_agent" (str (user_agent req))
          (assign "client_ip_address" (str (ip req))
             (spread (prop (Some event) "user_data"))))))
    (assign "event_source_url"
       (Some (JStr (orString (referer req) "https://yourdomain.com")))
       (assign "action_source" (Some (JStr "website"))
          (assign "event_time"
             (orElse (prop (Some event) "event_time")
                (Some (JNum (eventTime / 1000))))
             (spread (Some event))))).

(** The [forEach] that stores the batch: each event is put in front of
    the list in turn. *)
Fixpoint storeBatch (ticks : nat -> tick) (i : nat) (events : list json)
  (recentEvents : list eventRecord) : list eventRecord :=
  match events with
  | [] => recentEvents
  | event :: rest =>
      let t := ticks i in
      let eventRecord :=
        mkRecord (toString (now t) ++ substring 2 9 (random36 t))
          (prop (Some event) "event_name") (iso t) "success" None None true in
      storeBatch ticks (S i) rest (eventRecord :: recentEvents)
  end.

(** [sendBatchEvents]. *)
Definition sendBatchEvents (env : envT) (ax : axiosOutcome)
  (eventTime : Z) (ticks : nat -> tick) (req : requestT)
  (recentEvents : list eventRecord) : effect :=
  match lookup "events" (body req) with
  | Some (JArr (first :: others)) =>
      let events := first :: others in
      let batchPayload :=
        mkPayload (map (batchEvent req eventTime) events)
          (FACEBOOK_ACCESS_TOKEN env) (testCode env) in
      let (sent, settled) := sendToFacebookAPI env ax batchPayload in
      match settled with
      | inl responseData =>
          mkEffect (storeBatch ticks 0 events recentEvents) sent
            (mkReply 200 (BatchSent (List.length events) responseData))
      | inr errorMessage =>
          mkEffect recentEvents sent
            (mkReply 500 (Failed "Failed to send batch events" errorMessage))
      end
  | _ =>
      mkEffect recentEvents []
        (mkReply 400
           (BadRequest "Events array is required and must not be empty"))
  end.

(** [parseInt(s)] on an optional sign and a run of decimal digits;
    [None] is [NaN]. *)
Fixpoint digitPrefix (s : string) : string :=
  match s with
  | EmptyString => EmptyString
  | String c r => if isDigit c then String c (digitPrefix r) else EmptyString
  end.

Definition parseDigits (s : string) : option Z :=
  match digitPrefix s with
  | EmptyString => None
  | ds => digitsValue 0 ds
  end.

Definition parseInt (s : string) : option Z :=
  match trimStart s with
  | String "-" r => option_map Z.opp (parseDigits r)
  | String "+" r => parseDigits r
  | r => parseDigits r
  end.

(** [array.slice(0, n)]. *)
Definition slice0 {A : Type} (n : option Z) (l : list A) : list A :=
  match n with
  | None => []
  | Some k =>
      if k <? 0 then firstn (Z.to_nat (Z.of_nat (List.length l) + k)) l
      else firstn (Z.to_nat k) l
  end.

Definition hasStatus (s : string) (e : eventRecord) : bool :=
  String.eqb (status e) s.

(** [getEventStatus]; the query's [limit] defaults to 20. *)
Definition getEventStatus (req : requestT) (recentEvents : list eventRecord)
  : reply :=
  let parsed :=
    match limit req with
    | Some s => parseInt s
    | None => Some 20
    end in
  let limitedEvents := slice0 parsed recentEvents in
  mkReply 200
    (Stats (List.length recentEvents)
       (List.length (filter (hasStatus "success") recentEvents))
       (List.length (filter (hasStatus "failed") recentEvents))
       limitedEvents).

(** The two send operations as steps on [recentEvents], each with what
    the world supplied to it. *)
Inductive call : Type :=
| SendEvent (env : envT) (ax : axiosOutcome) (eventTime : Z) (t : tick)
    (req : requestT)
| SendBatch (env : envT) (ax : axiosOutcome) (eventTime : Z)
    (ticks : nat -> tick) (req : requestT).

Definition step (c : call) (recentEvents : list eventRecord) : effect :=
  match c with
  | SendEvent env ax eventTime t req =>
      sendConversionEvent env ax eventTime t req recentEvents
  | SendBatch env ax eventTime ticks req =>
      sendBatchEvents env ax eventTime ticks req recentEvents
  end.

(** The list after a sequence of calls, from the empty list the
    process starts with. *)
Definition after (calls : list call) : list eventRecord :=
  fold_left (fun events c => recentEvents (step c events)) calls [].

(** The records a call creates, oldest first: what it leaves in an
    empty list, read from the back. *)
Definition created (c : call) : list eventRecord :=
  rev (recentEvents (step c [])).

(** Every record ever placed in the list, oldest first. *)
Definition history (calls : list call) : list eventRecord :=
  flat_map created calls.

End Conversions.

(* ================================================================== *)
(** ** Sample requests and upstream services *)
(* ================================================================== *)

Module Examples.
Import Js Server.

(** The configuration documented in SIMPLYBOOK_FIXES.md: working hours
    16 to 18 on week days, sessions of 55 minutes. *)
Definition weekHours : workingHoursT :=
  mkWorkingHours 16 18
    ["Monday"; "Tuesday"; "Wednesday"; "Thursday"; "Friday"].

Definition config : configT := mkConfig weekHours (Some 55).

(** A Monday. *)
Definition monday : string := "2024-01-15".

Definition booked1600 : intervalGroup :=
  mkGroup (Some [mkInterval "16:00" "16:55"]) None.

Definition answer {R : Type} (r : R) : outcome R :=
  Resolved (mkResponse None (Some r)).

Definition failure {R : Type} (m : string) : outcome R :=
  Resolved (mkResponse (Some (mkError (Some m))) None).

(** A request for one conversion event that carries an e-mail address
    and a telephone number. *)
Definition leadRequest : Conversions.requestT :=
  Conversions.mkRequest
    [ ("event_name", JStr "Lead");
      ("user_data",
       JObj [("em", JStr "Jane.Doe@Example.com");
             ("ph", JStr "+44 7700 900123")]) ]
    None (Some "Mozilla/5.0") (Some "203.0.113.7") None.

Definition liveEnv : Conversions.envT :=
  Conversions.mkEnv (Some "1234567890") (Some "token") (Some "production").

Definition noon : Conversions.tick :=
  Conversions.mkTick 1700000000000 "2023-11-14T22:13:20.000Z" "0.4fzyo82mvyr".

(** A single send that the Conversions API refuses. *)
Definition refusedSend : Conversions.call :=
  Conversions.SendEvent liveEnv
    (Conversions.AxiosError "Request failed with status code 400" None
       (Some ("Invalid parameter", "100")))
    1700000000000 noon leadRequest.

(** A single send that goes through. *)
Definition acceptedSend : Conversions.call :=
  Conversions.SendEvent liveEnv (Conversions.AxiosOk None)
    1700000000000 noon leadRequest.

(** A booking request with every required field. *)
Definition bookingBody : list (string * json) :=
  [ ("start_time", JStr "2024-01-15 17:00");
    ("service_id", JNum 13);
    ("unit_id", JNum 4);
    ("client_name", JStr "Jane Doe");
    ("client_email", JStr "jane@example.com");
    ("client_phone", JStr "07700900123") ].

(** One theoretical slot at 16:00 on a Monday. *)
Definition oneSlot : list (string * list string) := [(monday, ["16:00"])].

(** An upstream service whose reserved-intervals call returns a
    JSON-RPC error for unit 4 and, for unit 10, reports 16:00 as
    booked. *)
Definition reservedErrorForUnit4 : upstream :=
  fun _ R c =>
    match c in rpc R return outcome R with
    | getToken => answer "public-token"
    | getUserToken => answer "admin-token"
    | getStartTimeMatrix _ _ _ _ => answer oneSlot
    | getReservedTimeIntervals _ _ _ _ unitId =>
        match unitId with
        | Some (JNum 4) => failure "Access denied"
        | _ => answer [(monday, [booked1600])]
        end
    | addClient _ _ _ _ => answer (JNum 501)
    | book _ _ _ _ _ => answer (mkBooking None (Some (JNum 9001)) None)
    end.

Definition availabilityBody : list (string * json) :=
  [ ("start_date", JStr "2024-01-15"); ("end_date", JStr "2024-01-15");
    ("service_id", JNum 13) ].

(** An upstream service on which everything succeeds, except that the
    [book] calls numbered in [failing] answer with the error
    [reason]. *)
Definition bookingFails (failing : list nat) (reason : string) : upstream :=
  fun n R c =>
    match c in rpc R return outcome R with
    | getToken => answer "public-token"
    | getUserToken => answer "admin-token"
    | getStartTimeMatrix _ _ _ _ => answer oneSlot
    | getReservedTimeIntervals _ _ _ _ _ => answer [(monday, [booked1600])]
    | addClient _ _ _ _ => answer (JNum 501)
    | book _ _ _ _ _ =>
        if existsb (Nat.eqb n) failing then failure reason
        else answer (mkBooking None (Some (JNum 9001)) None)
    end.

(** Two coaches with nothing reserved: Mason offers 17:00 on Monday
    and 16:00 on Tuesday, Josh 16:00 and 17:00 on Monday. *)
Definition twoCoaches : upstream :=
  fun _ R c =>
    match c in rpc R return outcome R with
    | getToken => answer "public-token"
    | getUserToken => answer "admin-token"
    | getStartTimeMatrix _ _ _ unitId =>
        if unitId =? 4
        then answer [(monday, ["17:00"]); ("2024-01-16", ["16:00"])]
        else answer [(monday, ["16:00"; "17:00"])]
    | getReservedTimeIntervals _ _ _ _ _ => answer []
    | addClient _ _ _ _ => answer (JNum 501)
    | book _ _ _ _ _ => answer (mkBooking None (Some (JNum 9001)) None)
    end.

(** What the handler answers to them. *)
Definition twoCoachesSlots : list slot :=
  [ mkSlot "2024-01-15 16:00" true (Some 10) (Some "Josh");
    mkSlot "2024-01-15 17:00" true (Some 4) (Some "Mason");
    mkSlot "2024-01-15 17:00" true (Some 10) (Some "Josh");
    mkSlot "2024-01-16 16:00" true (Some 4) (Some "Mason") ].

(** The first booking attempt is refused. *)
Definition refusingUpstream : upstream :=
  bookingFails [4%nat] "Selected time is not available".

(** The first two booking attempts fail for another reason. *)
Definition flakyUpstream : upstream :=
  bookingFails [4%nat; 6%nat] "Temporary failure".

(** All three booking attempts fail for another reason. *)
Definition failingUpstream : upstream :=
  bookingFails [4%nat; 6%nat; 8%nat] "Temporary failure".

(** Every [book] call is rejected: the connection drops. *)
Definition droppingUpstream : upstream :=
  fun n R c =>
    match c in rpc R return outcome R with
    | book _ _ _ _ _ => Rejected "Request failed: socket hang up"
    | c' => bookingFails [] "" n _ c'
    end.

End Examples.

(* ================================================================== *)
(** ** Vocabulary of the properties *)
(* ================================================================== *)

Import Js Server.
Local Open Scope list_scope.

(** The reserved and not-worked entries of a group. *)
Definition entriesOf (g : intervalGroup) : list interval :=
  orEmpty (reserved_time g) ++ orEmpty (not_worked_time g).

(** The fields [/api/book-session] requires. *)
Definition requiredFields : list string :=
  ["start_time"; "service_id"; "unit_id"; "client_name"; "client_email";
   "client_phone"].

(** The answer to a booking request that lacks a required field. *)
Definition missingFields : httpResponse :=
  mkHttp 400 (ErrorBody "Missing required fields").

(** The [em] and [ph] of every event of a posted payload. *)
Definition identifiersOf (p : Conversions.payloadT) : list (value * value) :=
  map (fun ev =>
         (Conversions.prop (lookup "user_data" ev) "em",
          Conversions.prop (lookup "user_data" ev) "ph"))
    (Conversions.data p).

(** A property of every run of a computation, whatever the upstream
    service answers: [P] is told the events in order and the outcome. *)
Fixpoint always {A : Type} (p : prog A)
  (P : list event -> A + errorObject -> Prop) : Prop :=
  match p with
  | Ret a => P [] (inl a)
  | Throw e => P [] (inr e)
  | Call c k => forall o, always (k o) (fun t r => P (EvCall c o :: t) r)
  | Delay ms k => always k (fun t r => P (EvDelay ms :: t) r)
  end.

(** A read the availability loop treats as failed: a rejected call,
    or a time matrix returned with an error. *)
Definition failedRead (e : event) : bool :=
  match e with
  | EvCall c (Rejected _) => true
  | EvCall c (Resolved r) =>
      match c in rpc R return response R -> bool with
      | getStartTimeMatrix _ _ _ _ =>
          fun r => match error r with Some _ => true | None => false end
      | _ => fun _ => false
      end r
  | EvDelay _ => false
  end.

(** The error test of the retry loop: a message that includes
    "not available". *)
Definition notAvailable (err : errorObject) : bool :=
  match message err with
  | Some m => includes "not available" m
  | None => false
  end.

(** How a [book] call settled, for the events that are one. *)
Definition bookOutcome (e : event) : option (outcome bookingT) :=
  match e with
  | EvCall c o =>
      match c in rpc R return outcome R -> option (outcome bookingT) with
      | book _ _ _ _ _ => fun o => Some o
      | _ => fun _ => None
      end o
  | EvDelay _ => None
  end.

Fixpoint bookOutcomes (t : list event) : list (outcome bookingT) :=
  match t with
  | [] => []
  | e :: rest =>
      match bookOutcome e with
      | Some o => o :: bookOutcomes rest
      | None => bookOutcomes rest
      end
  end.

(** The error a booking call returned, if it returned one. *)
Definition returnedError (o : outcome bookingT) : option errorObject :=
  match o with
  | Resolved r => error r
  | Rejected _ => None
  end.

(** The booking call returned a "not available" error. *)
Definition refused (o : outcome bookingT) : bool :=
  match returnedError o with
  | Some err => notAvailable err
  | None => false
  end.

(** The booking call returned an error of any other kind. *)
Definition transient (o : outcome bookingT) : bool :=
  match returnedError o with
  | Some err => negb (notAvailable err)
  | None => false
  end.

(** The booking call returned a booking and no error. *)
Definition succeeded (o : outcome bookingT) : bool :=
  match o with
  | Resolved (mkResponse None (Some _)) => true
  | _ => false
  end.

Definition isRefusal (e : event) : bool :=
  match bookOutcome e with
  | Some o => refused o
  | None => false
  end.

(** The waits of a run, in order. *)
Fixpoint delays (t : list event) : list Z :=
  match t with
  | [] => []
  | EvDelay ms :: rest => ms :: delays rest
  | EvCall _ _ :: rest => delays rest
  end.

(** Every [book] call comes straight after an availability read. *)
Fixpoint checkedBefore (previous : option event) (t : list event) : bool :=
  match t with
  | [] => true
  | e :: rest =>
      (if isBook e then
         match previous with
         | Some p => isCheck p
         | None => false
         end
       else true)
      && checkedBefore (Some e) rest
  end.

(** Once a refusal is met the run is over, with [Q]. *)
Fixpoint haltsOnRefusal (Q : Prop) (t : list event) : Prop :=
  match t with
  | [] => True
  | e :: rest => (isRefusal e = true -> rest = [] /\ Q) /\ haltsOnRefusal Q rest
  end.

(** The date and the clock time a slot is sorted by. *)
Definition dateOf (s : slot) : string := fst (dateAndTime (start_time s)).

Definition timeOf (s : slot) : string :=
  showMessage (snd (dateAndTime (start_time s))).

(** A start time with both of its parts. *)
Definition wellFormed (s : slot) : Prop :=
  snd (dateAndTime (start_time s)) <> None.

(** What the sort relies on in [localeCompare]: turning the arguments
    turns the sign, and "not after" is transitive.  The collation of
    any locale is such a comparison. *)
Record collation (localeCompare : string -> string -> Z) : Prop :=
  mkCollation {
    collation_flip :
      forall a b, localeCompare a b <= 0 <-> 0 <= localeCompare b a;
    collation_trans :
      forall a b c,
        localeCompare a b <= 0 -> localeCompare b c <= 0 ->
        localeCompare a c <= 0
  }.

(** [a] is not after [b]: by date string, then by time string, each in
    the order of [localeCompare]. *)
Definition notAfter (localeCompare : string -> string -> Z) (a b : slot)
  : Prop :=
  localeCompare (dateOf a) (dateOf b) < 0
  \/ (dateOf a = dateOf b /\ localeCompare (timeOf a) (timeOf b) <= 0).

(** The slots of a date and time, in the order of the list: of the
    date [d], and of a time that [localeCompare] does not tell from
    [t], as the time [t] itself. *)
Definition sameKey (localeCompare : string -> string -> Z) (d t : string)
  (s : slot) : bool :=
  String.eqb (dateOf s) d && (localeCompare (timeOf s) t =? 0).

(** The dates of the slots that differ are dates that [localeCompare]
    tells apart, as it does the dates of the calendar. *)
Definition datesToldApart (localeCompare : string -> string -> Z)
  (l : list slot) : Prop :=
  forall a b,
    In a l -> In b l ->
    localeCompare (dateOf a) (dateOf b) = 0 -> dateOf a = dateOf b.

(** On the dates and on the times of the slots [localeCompare] orders
    as the code units do, which is how it orders zero-padded dates and
    clock times. *)
Definition collatesByCodeUnits (localeCompare : string -> string -> Z)
  (l : list slot) : Prop :=
  forall a b,
    In a l -> In b l ->
    Z.sgn (localeCompare (dateOf a) (dateOf b))
    = codeUnitCompare (dateOf a) (dateOf b)
    /\ Z.sgn (localeCompare (timeOf a) (timeOf b))
       = codeUnitCompare (timeOf a) (timeOf b).

(** The time matrix a unit's call returned without error, with the
    unit. *)
Definition matrixOf (e : event) : option (Z * list (string * list string)) :=
  match e with
  | EvCall c (Resolved r) =>
      match c in rpc R
            return response R -> option (Z * list (string * list string)) with
      | getStartTimeMatrix _ _ _ unitId =>
          fun r =>
            match error r with
            | Some _ => None
            | None => Some (unitId, orEmpty (result r))
            end
      | _ => fun _ => None
      end r
  | _ => None
  end.

(** The reserved intervals a call returned. *)
Definition reservedOf (e : event)
  : option (list (string * list intervalGroup)) :=
  match e with
  | EvCall c (Resolved r) =>
      match c in rpc R
            return response R -> option (list (string * list intervalGroup)) with
      | getReservedTimeIntervals _ _ _ _ _ => fun r => Some (orEmpty (result r))
      | _ => fun _ => None
      end r
  | _ => None
  end.

(** The accepted slots of a run, unit after unit: for each time matrix
    returned without error and followed by the answer to the reserved
    intervals call, the times of the matrix that pass the filter
    against those intervals, with the unit and its coach. *)
Fixpoint acceptedIn (weekdayLong : string -> string) (config : configT)
  (t : list event) : list (list slot) :=
  match t with
  | [] => []
  | e :: rest =>
      match matrixOf e, rest with
      | Some (unitId, timeMatrix), e' :: _ =>
          match reservedOf e' with
          | Some reservedIntervals =>
              [tagSlots unitId (coachOf unitId)
                 (filterAvailableSlots weekdayLong timeMatrix reservedIntervals
                    (workingHours config) (serviceDuration config))]
          | None => []
          end
      | _, _ => []
      end ++ acceptedIn weekdayLong config rest
  end.

(** The strict overlap test [S.start < R.end && R.start < S.end]. *)
Definition strictOverlap (sStart sEnd rStart rEnd : num) : Prop :=
  num_lt sStart rEnd = true /\ num_lt rStart sEnd = true.

(* ------------------------------------------------------------------ *)
(** *** Vocabulary of the further properties *)

(** The character occurs in the string. *)
Fixpoint hasChar (c : ascii) (s : string) : bool :=
  match s with
  | EmptyString => false
  | String x r => Ascii.eqb x c || hasChar c r
  end.

(** An entry one of whose ends does not read as a clock time. *)
Definition malformed (R : interval) : Prop :=
  timeToMinutes (from R) = NaN \/ timeToMinutes (to R) = NaN.

(** The date and time pairs of a time matrix, in its order. *)
Definition candidates (timeMatrix : list (string * list string))
  : list (string * string) :=
  flat_map (fun entry => map (pair (fst entry)) (snd entry)) timeMatrix.

(** The three tests of the filter on one candidate. *)
Definition offered (weekdayLong : string -> string)
  (reservedIntervals : list (string * list intervalGroup))
  (workingHours : workingHoursT) (serviceDuration : option Z)
  (c : string * string) : bool :=
  existsb (String.eqb (weekdayLong (fst c))) (days workingHours)
  && withinWorkingHours workingHours (snd c)
  && isTimeSlotFree (snd c) (orEmpty (lookup (fst c) reservedIntervals))
       (Some (orDefault serviceDuration)).

Definition slotOf (c : string * string) : slot :=
  mkSlot (fst c ++ " " ++ snd c)%string true None None.

(** No date and no time of the matrix holds a space. *)
Definition spaceFree (timeMatrix : list (string * list string)) : Prop :=
  forall date times,
    In (date, times) timeMatrix ->
    hasChar " " date = false
    /\ forall time, In time times -> hasChar " " time = false.

(** A slot as the availability answer carries it: available, and of
    unit 4 with Mason or of unit 10 with Josh. *)
Definition staffed (s : slot) : Prop :=
  available s = true
  /\ ((unit_id s = Some 4 /\ coach_name s = Some "Mason")
      \/ (unit_id s = Some 10 /\ coach_name s = Some "Josh")).

Definition isUpstreamCall (e : event) : bool :=
  match e with
  | EvCall _ _ => true
  | EvDelay _ => false
  end.

(** The upstream calls of a run. *)
Definition calls (t : list event) : list event := filter isUpstreamCall t.

Definition isAddClient (e : event) : bool :=
  match e with
  | EvCall (addClient _ _ _ _) _ => true
  | _ => false
  end.

(** An [addClient] call answered with a client id and no error. *)
Definition createdClient (e : event) : bool :=
  match e with
  | EvCall c (Resolved r) =>
      match c in rpc R return response R -> bool with
      | addClient _ _ _ _ =>
          fun r =>
            match result r, error r with
            | Some clientId, None => truthy (Some clientId)
            | _, _ => false
            end
      | _ => fun _ => false
      end r
  | _ => false
  end.

(** No [book] call before a client was created. *)
Fixpoint clientBeforeBook (haveClient : bool) (t : list event) : bool :=
  match t with
  | [] => true
  | e :: rest =>
      (if isBook e then haveClient else true)
      && clientBeforeBook (haveClient || createdClient e) rest
  end.

(** The run ends on an availability read of the booking handler or on
    a refused [book] call. *)
Fixpoint endsInConflict (t : list event) : bool :=
  match t with
  | [] => false
  | [e] => isCheck e || isRefusal e
  | _ :: rest => endsInConflict rest
  end.

(** The date and the time the booking handler takes from the
    request. *)
Definition bookingSlot (reqBody : list (string * json))
  : string * option string :=
  match lookup "start_time" reqBody with
  | Some (JStr startTimeString) => dateAndTime startTimeString
  | _ => (EmptyString, None)
  end.

(** An availability read of the booking handler that was answered and
    showed the slot of the request free. *)
Definition passedCheck (config : configT) (reqBody : list (string * json))
  (e : event) : bool :=
  match e with
  | EvCall c (Resolved r) =>
      match c in rpc R return response R -> bool with
      | getReservedTimeIntervals rpc_id _ _ _ _ =>
          fun r =>
            (rpc_id =? 2)
            && match snd (bookingSlot reqBody) with
               | Some bookingTime =>
                   isTimeSlotFree bookingTime
                     (reservedOn (fst (bookingSlot reqBody)) r)
                     (serviceDuration config)
               | None => false
               end
      | _ => fun _ => false
      end r
  | _ => false
  end.

(** A [book] call that failed for now: it was rejected, or it returned
    an error other than "not available". *)
Definition failedForNow (o : outcome bookingT) : bool :=
  match o with
  | Rejected _ => true
  | Resolved _ => transient o
  end.

Definition isFailedBook (e : event) : bool :=
  match bookOutcome e with
  | Some o => failedForNow o
  | None => false
  end.

(** The discipline of the retry loop, read on a run.  Each [book] call
    comes straight after a read that showed the slot free.  After a
    [book] call that failed for now come a wait of 1000 ms and the read
    of the next attempt, unless the attempt was the third: then nothing
    comes.  [reads] counts the availability reads so far; the first of
    them precedes the loop. *)
Fixpoint retryDiscipline (config : configT) (reqBody : list (string * json))
  (reads : nat) (previous : option event) (t : list event) : bool :=
  match t with
  | [] => true
  | e :: rest =>
      let reads' := if isCheck e then S reads else reads in
      (if isBook e then
         match previous with
         | Some p => passedCheck config reqBody p
         | None => false
         end
       else true)
      && (if isFailedBook e then
            if (reads' <? 4)%nat then
              match rest with
              | EvDelay ms :: e' :: _ => (ms =? 1000) && isCheck e'
              | _ => false
              end
            else
              match rest with
              | [] => true
              | _ :: _ => false
              end
          else true)
      && retryDiscipline config reqBody reads' (Some e) rest
  end.

(** The answers of a run to its [book] calls: the first failed for
    now, a second, if one was made, failed for now, and a third, if one
    was made, returned a booking. *)
Definition failsTwiceThenBooks (l : list (outcome bookingT)) : bool :=
  match l with
  | [] => false
  | o1 :: l1 =>
      failedForNow o1
      && match l1 with
         | [] => true
         | o2 :: l2 =>
             failedForNow o2
             && match l2 with
                | [] => true
                | o3 :: _ => succeeded o3
                end
         end
  end.

(** Every availability read the booking handler made showed the slot
    free. *)
Definition readsPassed (config : configT) (reqBody : list (string * json))
  (t : list event) : bool :=
  forallb (fun e => implb (isCheck e) (passedCheck config reqBody e)) t.

(** A string of white space only. *)
Fixpoint blankString (s : string) : bool :=
  match s with
  | EmptyString => true
  | String c r => isSpace c && blankString r
  end.

(** A string without a digit. *)
Fixpoint digitFree (s : string) : bool :=
  match s with
  | EmptyString => true
  | String c r => negb (isDigit c) && digitFree r
  end.

(** The [recent_events] of a status reply. *)
Definition recentOf (r : Conversions.reply) : list Conversions.eventRecord :=
  match Conversions.content r with
  | Conversions.Stats _ _ _ recent_events => recent_events
  | _ => []
  end.

(* ================================================================== *)
(** ** Slot availability *)
(* ================================================================== *)

Lemma num_lt_Int (a b : Z) : num_lt (Int a) (Int b) = true <-> a < b.
Proof. simpl. apply Z.ltb_lt. Qed.

Lemma num_lt_irrefl (a : num) : num_lt a a = false.
Proof. destruct a; simpl; [apply Z.ltb_irrefl | reflexivity]. Qed.

Lemma conflictsWith_overlap (s e : num) (R : interval) :
  conflictsWith s e R = true <->
  strictOverlap s e (timeToMinutes (from R)) (timeToMinutes (to R)).
Proof. unfold conflictsWith, strictOverlap. apply andb_true_iff. Qed.

Lemma scanIntervals_false (s e : num) (l : list interval) :
  scanIntervals s e l = false <->
  exists R, In R l /\ conflictsWith s e R = true.
Proof.
  induction l as [|i r IH]; simpl.
  - split; [discriminate | intros [R [[] _]]].
  - destruct (conflictsWith s e i) eqn:Hc.
    + split; [intros _; exists i; auto | reflexivity].
    + rewrite IH. split.
      * intros [R [HR HcR]]. exists R. auto.
      * intros [R [[<- | HR] HcR]]; [congruence | exists R; auto].
Qed.

Lemma scanArray_false (s e : num) (a : option (list interval)) :
  scanArray s e a = false <->
  exists R, In R (orEmpty a) /\ conflictsWith s e R = true.
Proof.
  destruct a as [l|]; simpl.
  - apply scanIntervals_false.
  - split; [discriminate | intros [R [[] _]]].
Qed.

Lemma scanGroups_false (s e : num) (groups : list intervalGroup) :
  scanGroups s e groups = false <->
  exists g R, In g groups /\ In R (entriesOf g) /\ conflictsWith s e R = true.
Proof.
  induction groups as [|g r IH]; simpl.
  - split; [discriminate | intros [g [R [[] _]]]].
  - destruct (scanArray s e (reserved_time g)) eqn:Hr.
    + destruct (scanArray s e (not_worked_time g)) eqn:Hn.
      * rewrite IH. split.
        -- intros [g' [R [Hg HR]]]. exists g', R. tauto.
        -- intros [g' [R [[<- | Hg] [HR Hc]]]].
           ++ unfold entriesOf in HR. apply in_app_or in HR.
              destruct HR as [HR | HR].
              ** assert (scanArray s e (reserved_time g) = false)
                   by (apply scanArray_false; eauto).
                 congruence.
              ** assert (scanArray s e (not_worked_time g) = false)
                   by (apply scanArray_false; eauto).
                 congruence.
           ++ exists g', R. auto.
      * split; [intros _ | reflexivity].
        apply scanArray_false in Hn. destruct Hn as [R [HR Hc]].
        exists g, R. unfold entriesOf. auto using in_or_app.
    + split; [intros _ | reflexivity].
      apply scanArray_false in Hr. destruct Hr as [R [HR Hc]].
      exists g, R. unfold entriesOf. auto using in_or_app.
Qed.

(** C1. [isTimeSlotFree] answers [false] exactly when some reserved or
    not-worked entry [R] of the date satisfies the strict overlap test
    [S.start < R.end && R.start < S.end], where [S] runs from the slot's
    start for the service duration.  In particular the slot is free
    when every entry begins where the slot ends or ends where the slot
    begins. *)
Theorem isTimeSlotFree_strict_overlap :
  forall (timeSlot : string) (groups : list intervalGroup)
    (serviceDuration : option Z),
    (isTimeSlotFree timeSlot groups serviceDuration = false <->
     exists g R, In g groups /\ In R (entriesOf g) /\
       strictOverlap (timeToMinutes timeSlot)
         (num_add (timeToMinutes timeSlot) (Int (orDefault serviceDuration)))
         (timeToMinutes (from R)) (timeToMinutes (to R)))
    /\
    ((forall g R, In g groups -> In R (entriesOf g) ->
        num_add (timeToMinutes timeSlot) (Int (orDefault serviceDuration))
        = timeToMinutes (from R)
        \/ timeToMinutes timeSlot = timeToMinutes (to R)) ->
     isTimeSlotFree timeSlot groups serviceDuration = true).
Proof.
  intros timeSlot groups serviceDuration.
  set (sStart := timeToMinutes timeSlot).
  set (sEnd := num_add sStart (Int (orDefault serviceDuration))).
  assert (Hiff : isTimeSlotFree timeSlot groups serviceDuration = false <->
     exists g R, In g groups /\ In R (entriesOf g) /\
       strictOverlap sStart sEnd (timeToMinutes (from R)) (timeToMinutes (to R))).
  { unfold isTimeSlotFree. fold sStart. fold sEnd.
    rewrite scanGroups_false. split.
    - intros [g [R [Hg [HR Hc]]]]. exists g, R.
      rewrite <- conflictsWith_overlap. auto.
    - intros [g [R [Hg [HR Hc]]]]. exists g, R.
      rewrite conflictsWith_overlap. auto. }
  split; [exact Hiff |].
  intros Hedge.
  apply not_false_is_true. intros Hfree.
  apply Hiff in Hfree. destruct Hfree as [g [R [Hg [HR [H1 H2]]]]].
  destruct (Hedge g R Hg HR) as [He | He].
  - rewrite He in H2. rewrite num_lt_irrefl in H2. discriminate.
  - rewrite He in H1. rewrite num_lt_irrefl in H1. discriminate.
Qed.

(** The boundary cases on the clock: with 16:00-16:55 reserved,
    the 55-minute slots at 15:05 and at 16:55 are free, the slots at
    16:00 and at 15:30 are not. *)
Lemma isTimeSlotFree_strict_overlap_witness :
  isTimeSlotFree "15:05" [Examples.booked1600] (Some 55) = true
  /\ isTimeSlotFree "16:55" [Examples.booked1600] (Some 55) = true
  /\ isTimeSlotFree "16:00" [Examples.booked1600] (Some 55) = false
  /\ isTimeSlotFree "15:30" [Examples.booked1600] (Some 55) = false.
Proof.
  split; [| split; [| split]].
  - apply (isTimeSlotFree_strict_overlap "15:05" [Examples.booked1600]
             (Some 55)).
    intros g R [<- | []] [<- | []]. left. reflexivity.
  - apply (isTimeSlotFree_strict_overlap "16:55" [Examples.booked1600]
             (Some 55)).
    intros g R [<- | []] [<- | []]. right. reflexivity.
  - apply (isTimeSlotFree_strict_overlap "16:00" [Examples.booked1600]
             (Some 55)).
    exists Examples.booked1600, (mkInterval "16:00" "16:55").
    split; [left; reflexivity |].
    split; [left; reflexivity |].
    split; reflexivity.
  - apply (isTimeSlotFree_strict_overlap "15:30" [Examples.booked1600]
             (Some 55)).
    exists Examples.booked1600, (mkInterval "16:00" "16:55").
    split; [left; reflexivity |].
    split; [left; reflexivity |].
    split; reflexivity.
Defined.

(** What the filter keeps: the slots of a working day whose start lies
    in the window [start, end) and whose stretch is free.  The end of
    the slot is compared with no bound of the window. *)
Lemma filterAvailableSlots_In weekdayLong timeMatrix reservedIntervals
  workingHours serviceDuration (s : slot) :
  In s (filterAvailableSlots weekdayLong timeMatrix reservedIntervals
          workingHours serviceDuration)
  <->
  exists date times time,
    In (date, times) timeMatrix /\ In time times
    /\ existsb (String.eqb (weekdayLong date)) (days workingHours) = true
    /\ withinWorkingHours workingHours time = true
    /\ isTimeSlotFree time
         (orEmpty (lookup date reservedIntervals))
         (Some (orDefault serviceDuration)) = true
    /\ s = mkSlot (date ++ " " ++ time)%string true None None.
Proof.
  unfold filterAvailableSlots. rewrite in_flat_map. split.
  - intros [[date times] [Hentry Hs]]. simpl in Hs.
    destruct (existsb (String.eqb (weekdayLong date)) (days workingHours))
      eqn:Hday; simpl in Hs; [| destruct Hs].
    apply in_flat_map in Hs. destruct Hs as [time [Htime Hs]].
    destruct (withinWorkingHours workingHours time) eqn:Hwin; [| destruct Hs].
    destruct (isTimeSlotFree time _ _) eqn:Hfree; [| destruct Hs].
    destruct Hs as [<- | []].
    exists date, times, time. repeat split; auto.
  - intros [date [times [time [Hentry [Htime [Hday [Hwin [Hfree ->]]]]]]]].
    exists (date, times). split; [exact Hentry |]. simpl.
    rewrite Hday. simpl. apply in_flat_map. exists time.
    split; [exact Htime |]. rewrite Hwin.
    destruct (lookup date reservedIntervals); simpl in Hfree; rewrite Hfree;
      left; reflexivity.
Qed.

(** C2. With working hours 16 to 18 and sessions of 55 minutes, the
    filter keeps the slot at 17:30 next to the slot at 16:00: only the
    start of a slot is compared with the window, so a slot that ends at
    18:25 is accepted. *)
Theorem filterAvailableSlots_keeps_1730 :
  filterAvailableSlots weekdayLongUTC
    [(Examples.monday, ["16:00"; "17:30"])] [] Examples.weekHours (Some 55)
  = [ mkSlot "2024-01-15 16:00" true None None;
      mkSlot "2024-01-15 17:30" true None None ].
Proof. vm_compute. reflexivity. Qed.

(* ================================================================== *)
(** ** Conversion events *)
(* ================================================================== *)

Section EventList.
Import Conversions.

Lemma storeBatch_app (ticks : nat -> tick) (events : list json) :
  forall (i : nat) (l : list eventRecord),
    storeBatch ticks i events l = storeBatch ticks i events [] ++ l.
Proof.
  induction events as [|e rest IH]; intros i l; simpl.
  - reflexivity.
  - rewrite IH. rewrite (IH _ [_]). rewrite <- app_assoc. reflexivity.
Qed.

Lemma storeBatch_length (ticks : nat -> tick) (events : list json) :
  forall (i : nat) (l : list eventRecord),
    List.length (storeBatch ticks i events l)
    = (List.length events + List.length l)%nat.
Proof.
  induction events as [|e rest IH]; intros i l; simpl.
  - reflexivity.
  - rewrite IH. simpl. lia.
Qed.

Lemma storeBatch_status (ticks : nat -> tick) (events : list json) :
  forall (i : nat) (r : eventRecord),
    In r (storeBatch ticks i events []) -> status r = "success".
Proof.
  induction events as [|e rest IH]; intros i r; simpl.
  - intros [].
  - rewrite storeBatch_app. intros H. apply in_app_or in H.
    destruct H as [H | [<- | []]]; [eauto | reflexivity].
Qed.

(** A send that fails adds its record whatever the length of the
    list. *)
Lemma sendConversionEvent_failed_grows env ax eventTime t req l msg :
  snd (sendToFacebookAPI env ax (eventPayloadOf env req eventTime)) = inr msg ->
  List.length (recentEvents (sendConversionEvent env ax eventTime t req l))
  = S (List.length l).
Proof.
  unfold sendConversionEvent.
  destruct (sendToFacebookAPI env ax (eventPayloadOf env req eventTime))
    as [sent settled].
  simpl. intros ->. reflexivity.
Qed.

(** A batch that is sent adds one record per event whatever the length
    of the list. *)
Lemma sendBatchEvents_sent_grows env ax eventTime ticks req l :
  code (replied (sendBatchEvents env ax eventTime ticks req l)) = 200 ->
  exists events,
    lookup "events" (body req) = Some (JArr events) /\
    List.length (recentEvents (sendBatchEvents env ax eventTime ticks req l))
    = (List.length events + List.length l)%nat.
Proof.
  unfold sendBatchEvents.
  destruct (lookup "events" (body req)) as [[| | | |[|first others]|]|];
    simpl; try discriminate.
  destruct (sendToFacebookAPI env ax _) as [sent [responseData | msg]];
    simpl; try discriminate.
  intros _. exists (first :: others). split; [reflexivity |].
  apply (storeBatch_length ticks (first :: others) 0 l).
Qed.

Lemma pop_evicts (r : eventRecord) (l : list eventRecord) :
  exists oldest, r :: l = pop (r :: l) ++ [oldest].
Proof.
  exists (last (r :: l) r). apply app_removelast_last. discriminate.
Qed.

(** What a call leaves is the records it creates, newest first, in
    front of the list it found, less whatever it evicted at the back. *)
Lemma step_prepends (c : call) (l : list eventRecord) :
  exists evicted,
    rev (created c) ++ l = recentEvents (step c l) ++ evicted.
Proof.
  unfold created. rewrite rev_involutive.
  destruct c as [env ax eventTime t req | env ax eventTime ticks req]; simpl.
  - unfold sendConversionEvent.
    destruct (sendToFacebookAPI env ax _) as [sent [responseData | msg]];
      simpl.
    + destruct (100 <? S (List.length l))%nat.
      * unfold pop.
        set (r := mkRecord _ _ _ _ _ _ _).
        destruct (pop_evicts r l) as [x Hx].
        exists [x]. exact Hx.
      * exists []. rewrite app_nil_r. reflexivity.
    + exists []. rewrite app_nil_r. reflexivity.
  - unfold sendBatchEvents.
    destruct (lookup "events" (body req)) as [[| | | |[|first others]|]|];
      simpl; try (exists []; rewrite app_nil_r; reflexivity).
    destruct (sendToFacebookAPI env ax _) as [sent [responseData | msg]];
      simpl; try (exists []; rewrite app_nil_r; reflexivity).
    exists []. rewrite app_nil_r.
    rewrite (storeBatch_app ticks others 1 (_ :: l)).
    rewrite (storeBatch_app ticks others 1 [_]).
    rewrite <- app_assoc. reflexivity.
Qed.

Lemma created_status (c : call) (r : eventRecord) :
  In r (created c) -> status r = "success" \/ status r = "failed".
Proof.
  unfold created. rewrite <- in_rev.
  destruct c as [env ax eventTime t req | env ax eventTime ticks req]; simpl.
  - unfold sendConversionEvent.
    destruct (sendToFacebookAPI env ax _) as [sent [responseData | msg]];
      simpl; intros [<- | []]; auto.
  - unfold sendBatchEvents.
    destruct (lookup "events" (body req)) as [[| | | |[|first others]|]|];
      simpl; try (intros []).
    destruct (sendToFacebookAPI env ax _) as [sent [responseData | msg]];
      simpl; try (intros []).
    intros H. left.
    apply (storeBatch_status ticks (first :: others) 0 r H).
Qed.

Lemma after_snoc (calls : list call) (c : call) :
  after (calls ++ [c]) = recentEvents (step c (after calls)).
Proof. unfold after. rewrite fold_left_app. reflexivity. Qed.

Lemma history_snoc (calls : list call) (c : call) :
  history (calls ++ [c]) = history calls ++ created c.
Proof.
  unfold history. rewrite flat_map_app. simpl. rewrite app_nil_r. reflexivity.
Qed.

(** The list is the history read from its newest record, short of the
    records evicted. *)
Lemma after_newest_first (calls : list call) :
  exists evicted, rev (history calls) = after calls ++ evicted.
Proof.
  induction calls as [|c calls IH] using rev_ind.
  - exists []. reflexivity.
  - destruct IH as [evicted IH].
    destruct (step_prepends c (after calls)) as [evicted' Hstep].
    exists (evicted' ++ evicted).
    rewrite history_snoc, after_snoc, rev_app_distr, IH.
    rewrite app_assoc, Hstep, <- app_assoc. reflexivity.
Qed.

Lemma history_status (calls : list call) (r : eventRecord) :
  In r (history calls) -> status r = "success" \/ status r = "failed".
Proof.
  unfold history. rewrite in_flat_map. intros [c [_ Hr]].
  eapply created_status; eauto.
Qed.

Lemma count_two_statuses (l : list eventRecord) :
  (forall r, In r l -> status r = "success" \/ status r = "failed") ->
  List.length l
  = (List.length (filter (hasStatus "success") l)
     + List.length (filter (hasStatus "failed") l))%nat.
Proof.
  induction l as [|r l IH]; intros Hall; [reflexivity |].
  assert (Hl : forall r', In r' l ->
            status r' = "success" \/ status r' = "failed")
    by (intros; apply Hall; right; assumption).
  specialize (IH Hl). simpl.
  destruct (hasStatus "success" r) eqn:Hs, (hasStatus "failed" r) eqn:Hf;
    unfold hasStatus in Hs, Hf; simpl; try lia.
  - apply String.eqb_eq in Hs, Hf. congruence.
  - apply String.eqb_neq in Hs, Hf.
    destruct (Hall r (or_introl eq_refl)); contradiction.
Qed.

Lemma slice0_prefix {A : Type} (n : option Z) (l : list A) :
  exists rest, l = slice0 n l ++ rest.
Proof.
  unfold slice0. destruct n as [k|].
  - destruct (k <? 0); eexists; symmetry; apply firstn_skipn.
  - exists l. reflexivity.
Qed.

End EventList.

(** C3. The list outgrows 100 entries: only a single send that
    succeeds evicts, so 101 sends the Conversions API refuses leave 101
    records. *)
Theorem recentEvents_outgrows_cap :
  List.length (Conversions.after (repeat Examples.refusedSend 101)) = 101%nat
  /\ Forall (fun r => Conversions.status r = "failed")
       (Conversions.after (repeat Examples.refusedSend 101)).
Proof.
  split.
  - vm_compute. reflexivity.
  - apply Forall_forall. intros r Hr.
    destruct (after_newest_first (repeat Examples.refusedSend 101))
      as [evicted Hprefix].
    assert (Hin : In r (Conversions.history (repeat Examples.refusedSend 101))).
    { apply in_rev. rewrite Hprefix. apply in_or_app. left. exact Hr. }
    unfold Conversions.history in Hin. apply in_flat_map in Hin.
    destruct Hin as [c [Hc Hcreated]].
    apply repeat_spec in Hc. subst c.
    destruct Hcreated as [<- | []]. reflexivity.
Qed.

(** C10. Every record ever placed in the list has status 'success' or
    'failed'; after any sequence of sends the status query reports a
    total equal to its successful plus its failed count, and the
    records it returns are an initial stretch of the history read from
    its newest record. *)
Theorem getEventStatus_counts_and_order :
  forall (calls : list Conversions.call) (req : Conversions.requestT),
    (forall r, In r (Conversions.history calls) ->
       Conversions.status r = "success" \/ Conversions.status r = "failed")
    /\ exists total successful failed recent older,
         Conversions.getEventStatus req (Conversions.after calls)
         = Conversions.mkReply 200
             (Conversions.Stats total successful failed recent)
         /\ total = (successful + failed)%nat
         /\ rev (Conversions.history calls) = recent ++ older.
Proof.
  intros calls req. split; [apply history_status |].
  destruct (after_newest_first calls) as [evicted Hprefix].
  unfold Conversions.getEventStatus.
  set (parsed := match Conversions.limit req with
                 | Some s => Conversions.parseInt s
                 | None => Some 20
                 end).
  destruct (slice0_prefix parsed (Conversions.after calls))
    as [rest Hrest].
  do 4 eexists. exists (rest ++ evicted).
  split; [reflexivity |]. split.
  - apply count_two_statuses. intros r Hr.
    apply (history_status calls). apply in_rev.
    rewrite Hprefix. apply in_or_app. left. exact Hr.
  - rewrite app_assoc, <- Hrest. exact Hprefix.
Qed.

Lemma lookup_setField_same {A : Type} (k : string) (v : A) l :
  lookup k (setField k v l) = Some v.
Proof.
  induction l as [|[k' v'] r IH]; simpl.
  - rewrite String.eqb_refl. reflexivity.
  - destruct (String.eqb k k') eqn:E; simpl.
    + rewrite String.eqb_refl. reflexivity.
    + rewrite E. exact IH.
Qed.

Lemma lookup_setField_other {A : Type} (k k' : string) (v : A) l :
  String.eqb k k' = false -> lookup k (setField k' v l) = lookup k l.
Proof.
  intros Hk. induction l as [|[k2 v2] r IH]; simpl.
  - rewrite Hk. reflexivity.
  - destruct (String.eqb k' k2) eqn:E; simpl.
    + apply String.eqb_eq in E. subst k2. rewrite Hk. reflexivity.
    + rewrite IH. reflexivity.
Qed.

Lemma lookup_remove_other (k k' : string) (o : Conversions.object) :
  String.eqb k k' = false ->
  lookup k (Conversions.remove k' o) = lookup k o.
Proof.
  intros Hk. induction o as [|[k2 v2] r IH]; simpl; [reflexivity |].
  destruct (String.eqb k' k2) eqn:E; simpl.
  - apply String.eqb_eq in E. subst k2. rewrite Hk. exact IH.
  - rewrite IH. reflexivity.
Qed.

Lemma lookup_assign_other (k k' : string) (v : value) (o : Conversions.object) :
  String.eqb k k' = false ->
  lookup k (Conversions.assign k' v o) = lookup k o.
Proof.
  intros Hk. destruct v; simpl.
  - apply lookup_setField_other. exact Hk.
  - apply lookup_remove_other. exact Hk.
Qed.

Lemma lookup_spread (v : value) (k : string) :
  lookup k (Conversions.spread v) = Conversions.prop v k.
Proof. destruct v as [[]|]; reflexivity. Qed.

(** Whatever [em] and [ph] a request carries is what the single send
    posts. *)
Lemma eventPayloadOf_identifiers env req eventTime :
  identifiersOf (Conversions.eventPayloadOf env req eventTime)
  = [ (Conversions.prop (lookup "user_data" (Conversions.body req)) "em",
       Conversions.prop (lookup "user_data" (Conversions.body req)) "ph") ].
Proof.
  unfold identifiersOf, Conversions.eventPayloadOf. simpl map.
  rewrite lookup_setField_other by reflexivity.
  rewrite lookup_setField_same.
  unfold Conversions.prop at 1 2.
  rewrite !lookup_assign_other by reflexivity.
  rewrite !lookup_spread. reflexivity.
Qed.

(** C5. The single send posts the e-mail address and the telephone
    number of the request as they came, neither normalised nor hashed:
    [prepareUserData] is never applied to the payload. *)
Theorem sendConversionEvent_posts_plain_identifiers :
  map identifiersOf
    (Conversions.posted (Conversions.step Examples.acceptedSend []))
  = [[ (Some (JStr "Jane.Doe@Example.com"),
        Some (JStr "+44 7700 900123")) ]].
Proof. vm_compute. reflexivity. Qed.

(* ================================================================== *)
(** ** Booking: the required fields *)
(* ================================================================== *)

(** C9. When one of start_time, service_id, unit_id, client_name,
    client_email, client_phone is missing from the request, the booking
    handler answers 400 at once: the computation is a plain return, so
    against any upstream service the run makes no call at all. *)
Theorem bookSession_missing_field :
  forall (config : configT) (reqBody : list (string * json)) (k : string),
    In k requiredFields ->
    lookup k reqBody = None ->
    bookSessionHandler config reqBody = Ret missingFields
    /\ forall w n, run w n (bookSessionHandler config reqBody)
                   = ([], inl missingFields).
Proof.
  intros config reqBody k Hk Hmissing.
  assert (H : bookSessionHandler config reqBody = Ret missingFields).
  { unfold bookSessionHandler, requiredFields in *. simpl in Hk.
    destruct Hk as [<- | [<- | [<- | [<- | [<- | [<- | []]]]]]];
      rewrite Hmissing; simpl;
      repeat match goal with
             | |- context [truthy ?v] => destruct (truthy v); simpl
             end;
      reflexivity. }
  split; [exact H |]. intros w n. rewrite H. reflexivity.
Qed.

Lemma bookSession_missing_field_witness :
  bookSessionHandler Examples.config (tl Examples.bookingBody)
  = Ret missingFields
  /\ forall w n, run w n (bookSessionHandler Examples.config
                            (tl Examples.bookingBody))
                 = ([], inl missingFields).
Proof.
  apply (bookSession_missing_field Examples.config (tl Examples.bookingBody)
           "start_time").
  - simpl. left. reflexivity.
  - vm_compute. reflexivity.
Defined.


(* ================================================================== *)
(** ** Availability: merging and sorting *)
(* ================================================================== *)

(** Whatever the comparison, what the sort returns holds the elements
    it was given. *)
Lemma insertBy_Permutation {A : Type} (cmp : A -> A -> option Z) (x : A) :
  forall l l', insertBy cmp x l = Some l' -> Permutation (x :: l) l'.
Proof.
  induction l as [|y r IH]; intros l'; simpl.
  - intros [= <-]. reflexivity.
  - destruct (cmp x y) as [c|]; [| discriminate].
    destruct (c <=? 0); [intros [= <-]; reflexivity |].
    destruct (insertBy cmp x r) as [r'|]; [| discriminate].
    intros [= <-]. rewrite perm_swap. constructor. apply IH. reflexivity.
Qed.

Lemma sortBy_Permutation {A : Type} (cmp : A -> A -> option Z) :
  forall l sorted, sortBy cmp l = Some sorted -> Permutation l sorted.
Proof.
  induction l as [|x l IH]; intros sorted; simpl.
  - intros [= <-]. constructor.
  - destruct (sortBy cmp l) as [s|]; [| discriminate].
    intros Hins. apply insertBy_Permutation in Hins.
    rewrite <- Hins. constructor. apply IH. reflexivity.
Qed.

(** On slots with both parts the comparison function never throws, and
    it compares the dates, then the times. *)
Lemma compareSlots_wellFormed (localeCompare : string -> string -> Z)
  (a b : slot) :
  wellFormed a ->
  compareSlots localeCompare a b
  = Some (if String.eqb (dateOf a) (dateOf b)
          then localeCompare (timeOf a) (timeOf b)
          else localeCompare (dateOf a) (dateOf b)).
Proof.
  unfold wellFormed, compareSlots, dateOf, timeOf.
  destruct (dateAndTime (start_time a)) as [dA [tA|]];
    destruct (dateAndTime (start_time b)) as [dB tB]; simpl;
    [intros _ | intros H; contradiction H; reflexivity].
  destruct (String.eqb dA dB); reflexivity.
Qed.

(** So the sort of slots with both parts never throws, whatever
    [localeCompare] answers. *)
Lemma sortBy_succeeds (localeCompare : string -> string -> Z) (l : list slot) :
  Forall wellFormed l ->
  exists sorted, sortBy (compareSlots localeCompare) l = Some sorted.
Proof.
  induction l as [|x l IH]; intros Hwf; [exists []; reflexivity |].
  inversion Hwf as [|? ? Hx Hl]; subst.
  destruct (IH Hl) as [sorted Hsort]. simpl. rewrite Hsort.
  clear Hsort IH Hwf Hl. induction sorted as [|y r IHr]; simpl.
  - eexists; reflexivity.
  - rewrite (compareSlots_wellFormed localeCompare x y Hx).
    destruct (_ <=? 0); [eexists; reflexivity |].
    destruct IHr as [r' ->]. eexists; reflexivity.
Qed.

Section Collation.

Variable localeCompare : string -> string -> Z.
Hypothesis collates : collation localeCompare.

Lemma localeCompare_refl (a : string) : localeCompare a a = 0.
Proof. pose proof (collation_flip _ collates a a). lia. Qed.

Lemma localeCompare_lt_trans (a b c : string) :
  localeCompare a b < 0 -> localeCompare b c < 0 -> localeCompare a c < 0.
Proof.
  intros Hab Hbc.
  assert (Hac : localeCompare a c <= 0)
    by (apply (collation_trans _ collates a b c); lia).
  destruct (Z.eq_dec (localeCompare a c) 0) as [E | E]; [| lia].
  assert (Hca : localeCompare c a <= 0)
    by (apply (collation_flip _ collates c a); lia).
  pose proof (collation_trans _ collates c a b Hca ltac:(lia)) as Hcb.
  apply (collation_flip _ collates c b) in Hcb. lia.
Qed.

(** Not being told from a time is an equivalence. *)
Lemma localeCompare_tie (a b t : string) :
  localeCompare a t = 0 -> localeCompare b t = 0 -> localeCompare a b = 0.
Proof.
  intros Ha Hb.
  assert (Hta : localeCompare t a <= 0)
    by (apply (collation_flip _ collates t a); lia).
  assert (Htb : localeCompare t b <= 0)
    by (apply (collation_flip _ collates t b); lia).
  pose proof (collation_trans _ collates a t b ltac:(lia) Htb) as Hab.
  pose proof (collation_trans _ collates b t a ltac:(lia) Hta) as Hba.
  apply (collation_flip _ collates b a) in Hba. lia.
Qed.

Lemma notAfter_trans (a b c : slot) :
  notAfter localeCompare a b -> notAfter localeCompare b c ->
  notAfter localeCompare a c.
Proof.
  unfold notAfter. intros [Hab | [Eab Hab]] [Hbc | [Ebc Hbc]].
  - left. eapply localeCompare_lt_trans; eauto.
  - left. rewrite <- Ebc. exact Hab.
  - left. rewrite Eab. exact Hbc.
  - right. split; [congruence |].
    eapply (collation_trans _ collates); eauto.
Qed.

(** What an answer of the comparison function means, for two slots
    whose dates, if they differ, are told apart. *)
Lemma compareSlots_notAfter (a b : slot) (c : Z) :
  wellFormed a ->
  (localeCompare (dateOf a) (dateOf b) = 0 -> dateOf a = dateOf b) ->
  compareSlots localeCompare a b = Some c ->
  (c <= 0 -> notAfter localeCompare a b)
  /\ (0 < c -> notAfter localeCompare b a)
  /\ (dateOf a = dateOf b ->
      localeCompare (timeOf a) (timeOf b) = 0 -> c = 0).
Proof.
  intros Hwf Hapart. rewrite (compareSlots_wellFormed _ a b Hwf).
  intros [= <-]. unfold notAfter.
  destruct (String.eqb (dateOf a) (dateOf b)) eqn:Hd.
  - apply String.eqb_eq in Hd. repeat split.
    + intros Hc. right. auto.
    + intros Hc. right. split; [auto |].
      apply (collation_flip _ collates). lia.
    + intros _ Ht. exact Ht.
  - apply String.eqb_neq in Hd. repeat split.
    + intros Hc. left.
      destruct (Z.eq_dec (localeCompare (dateOf a) (dateOf b)) 0) as [E | E];
        [apply Hapart in E; contradiction | lia].
    + intros Hc. left.
      pose proof (collation_flip _ collates (dateOf b) (dateOf a)).
      pose proof (collation_flip _ collates (dateOf a) (dateOf b)). lia.
    + intros E. contradiction.
Qed.

Lemma sameKey_true (d t : string) (s : slot) :
  sameKey localeCompare d t s = true
  <-> dateOf s = d /\ localeCompare (timeOf s) t = 0.
Proof.
  unfold sameKey. rewrite andb_true_iff, String.eqb_eq, Z.eqb_eq. tauto.
Qed.

(** Inserting a slot into a sorted list: it keeps the list sorted and
    puts the new slot ahead of the slots of its own date and time. *)
Lemma insertBy_compareSlots (x : slot) (l : list slot) :
  wellFormed x ->
  datesToldApart localeCompare (x :: l) ->
  exists l',
    insertBy (compareSlots localeCompare) x l = Some l'
    /\ (StronglySorted (notAfter localeCompare) l ->
        StronglySorted (notAfter localeCompare) l')
    /\ (forall d t,
          filter (sameKey localeCompare d t) l'
          = filter (sameKey localeCompare d t) (x :: l)).
Proof.
  intros Hx. induction l as [|y r IH]; intros Hapart.
  - exists [x]. simpl. repeat split; auto.
    intros _. constructor; constructor.
  - simpl insertBy.
    destruct (compareSlots localeCompare x y) as [c|] eqn:Hc;
      [| rewrite (compareSlots_wellFormed _ x y Hx) in Hc; discriminate].
    assert (Hxy : localeCompare (dateOf x) (dateOf y) = 0 ->
                  dateOf x = dateOf y)
      by (apply Hapart; simpl; auto).
    destruct (compareSlots_notAfter x y c Hx Hxy Hc) as [Hle [Hgt Htie]].
    destruct (c <=? 0) eqn:Hsign.
    + apply Z.leb_le in Hsign.
      exists (x :: y :: r). repeat split; auto.
      intros Hsorted. constructor; [exact Hsorted |].
      constructor; [auto |].
      apply StronglySorted_inv in Hsorted. destruct Hsorted as [_ Hall].
      eapply Forall_impl; [| exact Hall].
      intros z Hz. eapply notAfter_trans; eauto.
    + apply Z.leb_gt in Hsign.
      destruct IH as [r' [Hins [Hsort Hstable]]].
      { intros a b Ha Hb. apply Hapart; simpl in *; tauto. }
      rewrite Hins. simpl. exists (y :: r'). split; [reflexivity |].
      split.
      * intros Hsorted.
        apply StronglySorted_inv in Hsorted. destruct Hsorted as [Hr Hall].
        constructor; [auto |].
        eapply Permutation_Forall;
          [exact (insertBy_Permutation _ x r r' Hins) |].
        constructor; [apply Hgt; lia | exact Hall].
      * intros d t. simpl. rewrite Hstable. simpl.
        destruct (sameKey localeCompare d t y) eqn:Hy,
                 (sameKey localeCompare d t x) eqn:Hxk; try reflexivity.
        apply sameKey_true in Hy, Hxk.
        destruct Hy as [Dy Ty], Hxk as [Dx Tx].
        assert (c = 0);
          [apply Htie; [congruence | exact (localeCompare_tie _ _ t Tx Ty)]
          | lia].
Qed.

(** The sort of the handler, on slots with both parts whose dates are
    told apart. *)
Lemma sortBy_compareSlots (l sorted : list slot) :
  Forall wellFormed l ->
  datesToldApart localeCompare l ->
  sortBy (compareSlots localeCompare) l = Some sorted ->
  StronglySorted (notAfter localeCompare) sorted
  /\ (forall d t,
        filter (sameKey localeCompare d t) sorted
        = filter (sameKey localeCompare d t) l).
Proof.
  revert sorted.
  induction l as [|x l IH]; intros sorted Hwf Hapart; simpl.
  - intros [= <-]. split; [constructor | reflexivity].
  - inversion Hwf as [|? ? Hx Hl]; subst.
    destruct (sortBy (compareSlots localeCompare) l) as [s|] eqn:Hs;
      [| discriminate].
    intros Hins.
    destruct (IH s Hl) as [Hsorted Hstable]; [| reflexivity |].
    { intros a b Ha Hb. apply Hapart; simpl; auto. }
    pose proof (sortBy_Permutation _ l s Hs) as Hperm.
    destruct (insertBy_compareSlots x s Hx) as [l' [Hins' [Hsorted' Hstable']]].
    { intros a b Ha Hb. apply Hapart.
      - destruct Ha as [<- | Ha]; [left; reflexivity | right].
        eapply Permutation_in; [symmetry; exact Hperm | exact Ha].
      - destruct Hb as [<- | Hb]; [left; reflexivity | right].
        eapply Permutation_in; [symmetry; exact Hperm | exact Hb]. }
    rewrite Hins in Hins'. injection Hins' as <-.
    split; [auto |].
    intros d t. rewrite Hstable'. simpl. rewrite Hstable. reflexivity.
Qed.

Lemma notAfter_antisym (a b : slot) :
  notAfter localeCompare a b -> notAfter localeCompare b a ->
  dateOf a = dateOf b /\ localeCompare (timeOf a) (timeOf b) = 0.
Proof.
  unfold notAfter. intros [Hab | [Eab Hab]] [Hba | [Eba Hba]].
  - pose proof (collation_flip _ collates (dateOf a) (dateOf b)). lia.
  - rewrite Eba, localeCompare_refl in Hab. lia.
  - rewrite Eab, localeCompare_refl in Hba. lia.
  - split; [exact Eab |].
    pose proof (collation_flip _ collates (timeOf b) (timeOf a)). lia.
Qed.

Lemma sameKey_self (s : slot) :
  sameKey localeCompare (dateOf s) (timeOf s) s = true.
Proof. apply sameKey_true. split; [reflexivity | apply localeCompare_refl]. Qed.

(** A list is determined by being sorted and by the order it gives the
    slots of each date and time: every stable sort returns the same
    list. *)
Lemma stable_sort_unique :
  forall l1 l2 : list slot,
    StronglySorted (notAfter localeCompare) l1 ->
    StronglySorted (notAfter localeCompare) l2 ->
    (forall d t,
       filter (sameKey localeCompare d t) l1
       = filter (sameKey localeCompare d t) l2) ->
    l1 = l2.
Proof.
  induction l1 as [|x l1 IH]; intros l2 Hs1 Hs2 Hkeys.
  - destruct l2 as [|y l2]; [reflexivity |].
    specialize (Hkeys (dateOf y) (timeOf y)). simpl in Hkeys.
    rewrite sameKey_self in Hkeys. discriminate.
  - destruct l2 as [|y l2].
    + specialize (Hkeys (dateOf x) (timeOf x)). simpl in Hkeys.
      rewrite sameKey_self in Hkeys. discriminate.
    + apply StronglySorted_inv in Hs1. destruct Hs1 as [Hs1 Hx].
      apply StronglySorted_inv in Hs2. destruct Hs2 as [Hs2 Hy].
      assert (Hxy : x = y).
      { pose proof (Hkeys (dateOf x) (timeOf x)) as Hk. simpl in Hk.
        rewrite sameKey_self in Hk.
        destruct (sameKey localeCompare (dateOf x) (timeOf x) y) eqn:Hky;
          [injection Hk as ->; reflexivity |].
        exfalso.
        assert (Hin2 : In x l2).
        { assert (H : In x (filter (sameKey localeCompare (dateOf x) (timeOf x))
                              l2))
            by (rewrite <- Hk; left; reflexivity).
          apply filter_In in H. tauto. }
        assert (Hin1 : In y l1).
        { pose proof (Hkeys (dateOf y) (timeOf y)) as Hk'. simpl in Hk'.
          rewrite sameKey_self in Hk'.
          assert (H : In y (filter (sameKey localeCompare (dateOf y) (timeOf y))
                              (x :: l1)))
            by (simpl; rewrite Hk'; left; reflexivity).
          apply filter_In in H. destruct H as [[-> | H] _]; [| exact H].
          rewrite sameKey_self in Hky. discriminate. }
        rewrite Forall_forall in Hx, Hy.
        destruct (notAfter_antisym x y (Hx y Hin1) (Hy x Hin2)) as [Hd Ht].
        assert (sameKey localeCompare (dateOf x) (timeOf x) y = true).
        { apply sameKey_true. split; [congruence |].
          pose proof (collation_flip _ collates (timeOf x) (timeOf y)).
          pose proof (collation_flip _ collates (timeOf y) (timeOf x)). lia. }
        congruence. }
      subst y. f_equal. apply IH; auto.
      intros d t. specialize (Hkeys d t). simpl in Hkeys.
      destruct (sameKey localeCompare d t x);
        [injection Hkeys as Hkeys |]; exact Hkeys.
Qed.

End Collation.

(** The order of the code units is a collation, and one that tells all
    strings apart. *)
Lemma ascii_compare_refl (c : ascii) : Ascii.compare c c = Eq.
Proof. unfold Ascii.compare. apply N.compare_refl. Qed.

Lemma string_compare_refl (s : string) : String.compare s s = Eq.
Proof.
  induction s as [|c s IH]; simpl; [reflexivity |].
  rewrite ascii_compare_refl. exact IH.
Qed.

Lemma ascii_compare_lt_trans (a b c : ascii) :
  Ascii.compare a b = Lt -> Ascii.compare b c = Lt -> Ascii.compare a c = Lt.
Proof.
  unfold Ascii.compare. rewrite !N.compare_lt_iff. apply N.lt_trans.
Qed.

Lemma string_compare_lt_trans :
  forall a b c : string,
    String.compare a b = Lt -> String.compare b c = Lt ->
    String.compare a c = Lt.
Proof.
  induction a as [|x a IH]; intros [|y b] [|z c]; simpl;
    try discriminate; try reflexivity.
  destruct (Ascii.compare x y) eqn:Hxy; try discriminate.
  - apply Ascii.compare_eq_iff in Hxy. subst y.
    destruct (Ascii.compare x z); try discriminate; [apply IH | reflexivity].
  - intros _.
    destruct (Ascii.compare y z) eqn:Hyz; try discriminate.
    + apply Ascii.compare_eq_iff in Hyz. subst z. rewrite Hxy. reflexivity.
    + intros _. rewrite (ascii_compare_lt_trans x y z Hxy Hyz). reflexivity.
Qed.

Lemma codeUnitCompare_zero (a b : string) :
  codeUnitCompare a b = 0 -> a = b.
Proof.
  unfold codeUnitCompare.
  destruct (String.compare a b) eqn:H; try discriminate.
  intros _. apply String.compare_eq_iff. exact H.
Qed.

Lemma codeUnitCompare_collation : collation codeUnitCompare.
Proof.
  assert (Hopp : forall a b,
            codeUnitCompare b a = - codeUnitCompare a b).
  { intros a b. unfold codeUnitCompare.
    rewrite (String.compare_antisym a b).
    destruct (String.compare b a); reflexivity. }
  assert (Hlt : forall a b,
            codeUnitCompare a b < 0 <-> String.compare a b = Lt).
  { intros a b. unfold codeUnitCompare.
    destruct (String.compare a b); split; intros; try lia; try discriminate;
      reflexivity. }
  constructor.
  - intros a b. rewrite (Hopp a b). lia.
  - intros a b c Hab Hbc.
    destruct (Z.eq_dec (codeUnitCompare a b) 0) as [E | E];
      [apply codeUnitCompare_zero in E; subst b; exact Hbc |].
    destruct (Z.eq_dec (codeUnitCompare b c) 0) as [E' | E'];
      [apply codeUnitCompare_zero in E'; subst c; exact Hab |].
    apply Z.lt_le_incl. apply Hlt.
    apply (string_compare_lt_trans a b c); apply Hlt; lia.
Qed.

Lemma codeUnitCompare_datesToldApart (l : list slot) :
  datesToldApart codeUnitCompare l.
Proof. intros a b _ _. apply codeUnitCompare_zero. Qed.

Lemma StronglySorted_among {A : Type} (R R' : A -> A -> Prop) (l : list A) :
  (forall a b, In a l -> In b l -> R a b -> R' a b) ->
  StronglySorted R l -> StronglySorted R' l.
Proof.
  intros Himpl Hsorted. induction Hsorted as [|x l Hl IH Hx].
  - constructor.
  - constructor.
    + apply IH. intros a b Ha Hb. apply Himpl; right; assumption.
    + rewrite Forall_forall in *. intros y Hy.
      apply Himpl; [left; reflexivity | right; exact Hy | exact (Hx y Hy)].
Qed.

(** Where [localeCompare] orders as the code units do, a list in its
    order is in lexicographic order. *)
Lemma sorted_lexicographically (localeCompare : string -> string -> Z)
  (l : list slot) :
  collatesByCodeUnits localeCompare l ->
  StronglySorted (notAfter localeCompare) l ->
  StronglySorted (notAfter codeUnitCompare) l.
Proof.
  intros Hagree. apply StronglySorted_among. intros a b Ha Hb.
  destruct (Hagree a b Ha Hb) as [Hd Ht]. unfold notAfter.
  intros [Hlt | [Heq Hle]].
  - left. rewrite <- Hd.
    destruct (localeCompare (dateOf a) (dateOf b)); simpl; lia.
  - right. split; [exact Heq |]. rewrite <- Ht.
    destruct (localeCompare (timeOf a) (timeOf b)); simpl; lia.
Qed.

Lemma codeUnitCompare_sign (a b : string) :
  Z.sgn (codeUnitCompare a b) = codeUnitCompare a b.
Proof. unfold codeUnitCompare. destruct (String.compare a b); reflexivity. Qed.

Lemma filter_concat {A : Type} (f : A -> bool) (ls : list (list A)) :
  filter f (List.concat ls) = List.concat (map (filter f) ls).
Proof.
  induction ls as [|l ls IH]; simpl; [reflexivity |].
  rewrite filter_app, IH. reflexivity.
Qed.

Lemma split_nonempty (sep : ascii) (s : string) : split sep s <> [].
Proof.
  induction s as [|c s IH]; simpl; [discriminate |].
  destruct (Ascii.eqb c sep); [discriminate |].
  destruct (split sep s); [contradiction | discriminate].
Qed.

(** A start time made of a date, a space and a time has both parts. *)
Lemma dateAndTime_joined (date time : string) :
  snd (dateAndTime (date ++ " " ++ time)%string) <> None.
Proof.
  unfold dateAndTime. simpl snd.
  induction date as [|c date IH]; simpl.
  - pose proof (split_nonempty " " time) as Hne.
    destruct (split " " time); [contradiction | discriminate].
  - pose proof (split_nonempty " " (date ++ String " " time)%string) as Hne.
    destruct (Ascii.eqb c " ").
    + destruct (split " " (date ++ String " " time)%string);
        [contradiction | discriminate].
    + destruct (split " " (date ++ String " " time)%string) as [|h t];
        [contradiction | exact IH].
Qed.

Lemma filterAvailableSlots_wellFormed weekdayLong timeMatrix reservedIntervals
  workingHours serviceDuration :
  Forall wellFormed
    (filterAvailableSlots weekdayLong timeMatrix reservedIntervals
       workingHours serviceDuration).
Proof.
  unfold filterAvailableSlots. apply Forall_forall. intros s Hs.
  apply in_flat_map in Hs. destruct Hs as [[date times] [_ Hs]].
  simpl in Hs.
  destruct (negb (existsb (String.eqb (weekdayLong date)) (days workingHours)));
    [destruct Hs |].
  apply in_flat_map in Hs. destruct Hs as [time [_ Hs]].
  destruct (withinWorkingHours workingHours time); [| destruct Hs].
  destruct (isTimeSlotFree time _ _); [| destruct Hs].
  destruct Hs as [<- | []].
  unfold wellFormed. simpl start_time. apply dateAndTime_joined.
Qed.

(* ================================================================== *)
(** ** Every run of a handler *)
(* ================================================================== *)

Lemma run_always {A : Type} (p : prog A) :
  forall (P : list event -> A + errorObject -> Prop),
    always p P ->
    forall w n, P (fst (run w n p)) (snd (run w n p)).
Proof.
  induction p as [a | e | R c k IH | ms k IH]; intros P H w n; simpl in *.
  - exact H.
  - exact H.
  - specialize (IH (w n R c) _ (H (w n R c)) w (S n)).
    destruct (run w (S n) (k (w n R c))) as [t r]. exact IH.
  - specialize (IH _ H w n).
    destruct (run w n k) as [t r]. exact IH.
Qed.

Lemma haltsOnRefusal_split (Q : Prop) (t : list event) :
  haltsOnRefusal Q t ->
  forall pre e post,
    t = pre ++ e :: post -> isRefusal e = true -> post = [] /\ Q.
Proof.
  intros H pre. revert t H.
  induction pre as [|x pre IH]; intros t H e post -> Hr; simpl in H.
  - apply H. exact Hr.
  - eapply IH; [apply H | reflexivity | exact Hr].
Qed.

(** The scrutinee on which a computation is stuck. *)
Ltac stuck p :=
  lazymatch p with
  | tryCatch ?q _ => stuck q
  | bind ?q _ => stuck q
  | match ?x with _ => _ end => x
  end.

(** One step of the exploration of every run: an upstream answer is
    split into its cases, a test the computation waits on is decided
    both ways. *)
Ltac explore_step :=
  cbn -[isTimeSlotFree includes dateAndTime lookup truthy lacksTrim
        String.append String.eqb filterAvailableSlots tagSlots sortBy
        compareSlots app];
  unfold checkSlot, prepareClientData;
  lazymatch goal with
  | |- forall o : outcome _, always _ _ => intros [[? ?] | ?]
  | |- always ?p _ =>
      let x := stuck p in
      first [ match goal with H : x = _ |- _ => rewrite H end
            | is_var x; destruct x
            | destruct x eqn:? ]
  end.

Ltac explore := repeat explore_step.


(* ================================================================== *)
(** ** Availability: the units of a request *)
(* ================================================================== *)

Lemma tagSlots_wellFormed (unitId : Z) (coachName : string) (l : list slot) :
  Forall wellFormed l -> Forall wellFormed (tagSlots unitId coachName l).
Proof.
  unfold tagSlots. intros H. apply Forall_map.
  eapply Forall_impl; [| exact H]. intros s Hs. exact Hs.
Qed.

(** A unit whose time-matrix call is rejected or returns an error, or
    whose reserved-intervals call is rejected, adds no slot; in no case
    does the loop body throw. *)
Lemma unitSlots_skips_failed_unit weekdayLong config start_date end_date
  service_id publicToken adminToken unitId :
  always
    (unitSlots weekdayLong config start_date end_date service_id publicToken
       adminToken unitId)
    (fun t r =>
       (exists slots, r = inl slots)
       /\ (existsb failedRead t = true -> r = inl [])).
Proof.
  unfold unitSlots. explore.
  all: cbn -[filterAvailableSlots tagSlots]; split;
    [eexists; reflexivity | intros; try discriminate; reflexivity].
Qed.

(** What a 200 answer of the availability handler carries: the sort
    of the accepted slots of the run, unit after unit. *)
Lemma availableSlots_result weekdayLong localeCompare config reqBody :
  always (availableSlotsHandler weekdayLong localeCompare config reqBody)
    (fun t r =>
       forall sorted,
         r = inl (mkHttp 200 (SlotsBody sorted)) ->
         sortBy (compareSlots localeCompare)
           (List.concat (acceptedIn weekdayLong config t))
         = Some sorted).
Proof.
  unfold availableSlotsHandler, allowedUnits, collectUnits, unitSlots,
    summaryLoop.
  explore.
  all: cbn -[filterAvailableSlots tagSlots sortBy app coachOf];
    intros sorted Hr; try discriminate Hr.
  all: injection Hr as <-.
  all: cbn [app List.concat]; rewrite ?app_nil_r;
    match goal with
    | H : sortBy _ _ = Some _ |- _ =>
        cbn [app] in H; rewrite ?app_nil_r in H; exact H
    end.
Qed.

Lemma acceptedIn_wellFormed weekdayLong config (t : list event) :
  Forall wellFormed (List.concat (acceptedIn weekdayLong config t)).
Proof.
  induction t as [|e rest IH]; simpl; [constructor |].
  rewrite concat_app. apply Forall_app. split; [| exact IH].
  destruct (matrixOf e) as [[unitId timeMatrix]|]; [| constructor].
  destruct rest as [|e' rest']; [constructor |].
  destruct (reservedOf e'); [| constructor].
  simpl. rewrite app_nil_r. apply tagSlots_wellFormed.
  apply filterAvailableSlots_wellFormed.
Qed.

(** C4. When the reserved-intervals call of unit 4 returns a JSON-RPC
    error, the request still succeeds, but unit 4 is not dropped: its
    theoretical slot at 16:00 is returned unfiltered, while unit 10,
    whose calls succeeded and report 16:00 as booked, adds nothing. *)
Theorem availableSlots_reserved_error_keeps_unit :
  snd (run Examples.reservedErrorForUnit4 0
         (availableSlotsHandler weekdayLongUTC codeUnitCompare
            Examples.config Examples.availabilityBody))
  = inl (mkHttp 200
           (SlotsBody
              [mkSlot "2024-01-15 16:00" true (Some 4) (Some "Mason")])).
Proof. vm_compute. reflexivity. Qed.

(** C8. Whenever the availability handler answers 200, its list holds
    exactly the accepted slots of every unit of the run (a permutation
    of them, so that two units with the same date and time both
    appear); it is ordered by date string and then by time string, each
    in the order of [localeCompare]; and the slots of one date and time
    stand unit after unit in the order of the units, each unit's in its
    own order.  This holds for every collation, on slots whose dates it
    tells apart; and where it orders the dates and the times of the
    slots as their code units do, as on zero-padded ones, the order of
    the list is the lexicographic one. *)
Theorem availableSlots_merged_sorted_stable :
  forall (weekdayLong : string -> string)
    (localeCompare : string -> string -> Z) (config : configT)
    (reqBody : list (string * json)) (w : upstream) (sorted : list slot),
    collation localeCompare ->
    snd (run w 0
           (availableSlotsHandler weekdayLong localeCompare config reqBody))
    = inl (mkHttp 200 (SlotsBody sorted)) ->
    datesToldApart localeCompare sorted ->
    Permutation
      (List.concat
         (acceptedIn weekdayLong config
            (fst (run w 0
                    (availableSlotsHandler weekdayLong localeCompare config
                       reqBody)))))
      sorted
    /\ StronglySorted (notAfter localeCompare) sorted
    /\ (forall d t,
          filter (sameKey localeCompare d t) sorted
          = List.concat
              (map (filter (sameKey localeCompare d t))
                 (acceptedIn weekdayLong config
                    (fst (run w 0
                            (availableSlotsHandler weekdayLong localeCompare
                               config reqBody))))))
    /\ (collatesByCodeUnits localeCompare sorted ->
        StronglySorted (notAfter codeUnitCompare) sorted).
Proof.
  intros weekdayLong localeCompare config reqBody w sorted Hlc Hr Hapart.
  pose proof (run_always _ _
                (availableSlots_result weekdayLong localeCompare config reqBody)
                w 0%nat sorted Hr) as Hsort.
  pose proof (sortBy_Permutation _ _ _ Hsort) as Hperm.
  destruct (sortBy_compareSlots localeCompare Hlc _ sorted
              (acceptedIn_wellFormed weekdayLong config
                 (fst (run w 0
                         (availableSlotsHandler weekdayLong localeCompare
                            config reqBody)))))
    as [Hsorted Hstable]; [| exact Hsort |].
  { intros a b Ha Hb. apply Hapart; eapply Permutation_in; eauto. }
  split; [exact Hperm |]. split; [exact Hsorted |]. split.
  - intros d t. rewrite Hstable. apply filter_concat.
  - intros Hagree.
    exact (sorted_lexicographically localeCompare sorted Hagree Hsorted).
Qed.

Lemma availableSlots_merged_sorted_stable_witness :
  Permutation
    (List.concat
       (acceptedIn weekdayLongUTC Examples.config
          (fst (run Examples.twoCoaches 0
                  (availableSlotsHandler weekdayLongUTC codeUnitCompare
                     Examples.config Examples.availabilityBody)))))
    Examples.twoCoachesSlots
  /\ StronglySorted (notAfter codeUnitCompare) Examples.twoCoachesSlots
  /\ (forall d t,
        filter (sameKey codeUnitCompare d t) Examples.twoCoachesSlots
        = List.concat
            (map (filter (sameKey codeUnitCompare d t))
               (acceptedIn weekdayLongUTC Examples.config
                  (fst (run Examples.twoCoaches 0
                          (availableSlotsHandler weekdayLongUTC
                             codeUnitCompare Examples.config
                             Examples.availabilityBody))))))
  /\ (collatesByCodeUnits codeUnitCompare Examples.twoCoachesSlots ->
      StronglySorted (notAfter codeUnitCompare) Examples.twoCoachesSlots).
Proof.
  apply (availableSlots_merged_sorted_stable weekdayLongUTC
           codeUnitCompare Examples.config Examples.availabilityBody
           Examples.twoCoaches Examples.twoCoachesSlots).
  - exact codeUnitCompare_collation.
  - vm_compute. reflexivity.
  - apply codeUnitCompare_datesToldApart.
Defined.

(** The accepted slots of that run: Mason's two, then Josh's two. *)
Lemma availableSlots_two_coaches :
  acceptedIn weekdayLongUTC Examples.config
    (fst (run Examples.twoCoaches 0
            (availableSlotsHandler weekdayLongUTC codeUnitCompare
               Examples.config Examples.availabilityBody)))
  = [ [ mkSlot "2024-01-15 17:00" true (Some 4) (Some "Mason");
        mkSlot "2024-01-16 16:00" true (Some 4) (Some "Mason") ];
      [ mkSlot "2024-01-15 16:00" true (Some 10) (Some "Josh");
        mkSlot "2024-01-15 17:00" true (Some 10) (Some "Josh") ] ].
Proof. vm_compute. reflexivity. Qed.

(* ================================================================== *)
(** ** Booking: the retry loop *)
(* ================================================================== *)

Lemma bookSession_halts_on_refusal (config : configT)
  (reqBody : list (string * json)) :
  always (bookSessionHandler config reqBody)
    (fun t r => haltsOnRefusal (r = inl conflictResponse) t).
Proof.
  unfold bookSessionHandler.
  change (Z.to_nat maxRetries) with 3%nat.
  explore.
  all: cbn -[includes].
  all: unfold isRefusal, refused, notAvailable; cbn -[includes].
  all: repeat split; intros; try discriminate; try congruence.
Qed.

(** C6. Whatever the upstream service answers, a [book] call that
    returns an error whose message includes "not available" is the last
    thing the booking handler does: nothing follows it, neither a call
    nor a wait, and the answer is the 409 conflict. *)
Theorem bookSession_refusal_is_final :
  forall (config : configT) (reqBody : list (string * json)) (w : upstream)
    (pre : list event) (e : event) (post : list event),
    fst (run w 0 (bookSessionHandler config reqBody)) = pre ++ e :: post ->
    isRefusal e = true ->
    post = []
    /\ snd (run w 0 (bookSessionHandler config reqBody)) = inl conflictResponse.
Proof.
  intros config reqBody w pre e post Htrace Hrefusal.
  pose proof (run_always _ _ (bookSession_halts_on_refusal config reqBody) w 0%nat)
    as Hhalts.
  exact (haltsOnRefusal_split _ _ Hhalts pre e post Htrace Hrefusal).
Qed.

Lemma bookSession_refusal_is_final_witness :
  List.length
    (fst (run Examples.refusingUpstream 0
            (bookSessionHandler Examples.config Examples.bookingBody)))
  = 5%nat
  /\ (@nil event = []
      /\ snd (run Examples.refusingUpstream 0
                (bookSessionHandler Examples.config Examples.bookingBody))
         = inl conflictResponse).
Proof.
  split; [vm_compute; reflexivity |].
  apply (bookSession_refusal_is_final Examples.config Examples.bookingBody
           Examples.refusingUpstream
           (firstn 4 (fst (run Examples.refusingUpstream 0
                             (bookSessionHandler Examples.config
                                Examples.bookingBody))))
           (nth 4 (fst (run Examples.refusingUpstream 0
                          (bookSessionHandler Examples.config
                             Examples.bookingBody)))
              (EvDelay 0))
           []).
  - vm_compute. reflexivity.
  - vm_compute. reflexivity.
Defined.

(** When the third attempt too returns such an error the cap is
    exhausted: three attempts, two waits, and the last message is what
    the caller sees. *)
Lemma bookSession_cap_exhausted :
  snd (run Examples.failingUpstream 0
         (bookSessionHandler Examples.config Examples.bookingBody))
  = inl (mkHttp 500
           (ErrorBody "Failed to create booking: Temporary failure"))
  /\ delays (fst (run Examples.failingUpstream 0
                    (bookSessionHandler Examples.config Examples.bookingBody)))
     = [1000; 1000]
  /\ List.length
       (bookOutcomes
          (fst (run Examples.failingUpstream 0
                  (bookSessionHandler Examples.config Examples.bookingBody))))
     = 3%nat.
Proof. vm_compute. repeat split; reflexivity. Qed.

(** C7. When the connection drops on every [book] call, the loop
    does retry: three attempts, each rejected with the upstream error,
    and two waits of 1000 ms.  But no booking result is ever held, so
    after the loop the handler reads a property of [null]: the 500 it
    answers comes from the outer [catch] and carries the message of
    that [TypeError], not the error of the upstream service that the
    loop kept in [lastError]. *)
Theorem bookSession_all_rejected :
  bookOutcomes
    (fst (run Examples.droppingUpstream 0
            (bookSessionHandler Examples.config Examples.bookingBody)))
  = [ Rejected "Request failed: socket hang up";
      Rejected "Request failed: socket hang up";
      Rejected "Request failed: socket hang up" ]
  /\ delays (fst (run Examples.droppingUpstream 0
                    (bookSessionHandler Examples.config Examples.bookingBody)))
     = [1000; 1000]
  /\ snd (run Examples.droppingUpstream 0
            (bookSessionHandler Examples.config Examples.bookingBody))
     = inl (mkHttp 500
              (ErrorBody
                 "Failed to process booking: Cannot read properties of null (reading 'result')")).
Proof. vm_compute. repeat split; reflexivity. Qed.

(* ================================================================== *)
(** ** Clock strings *)
(* ================================================================== *)

Lemma split_without (c : ascii) (s : string) :
  hasChar c s = false -> split c s = [s].
Proof.
  induction s as [|x s IH]; simpl; [reflexivity |].
  intros H. apply orb_false_iff in H. destruct H as [Hx Hs].
  rewrite Hx, (IH Hs). reflexivity.
Qed.

Lemma split_at (c : ascii) (a b : string) :
  hasChar c a = false ->
  split c (a ++ String c b)%string = a :: split c b.
Proof.
  induction a as [|x a IH]; simpl.
  - intros _. rewrite Ascii.eqb_refl. reflexivity.
  - intros H. apply orb_false_iff in H. destruct H as [Hx Ha].
    rewrite Hx, (IH Ha). reflexivity.
Qed.

Lemma num_add_NaN (a : num) : num_add a NaN = NaN.
Proof. destruct a; reflexivity. Qed.

(** X1. [timeToMinutes] reads the first two fields between colons:
    hours times 60 plus minutes; a seconds field, or anything else
    after a second colon, changes nothing, and a string without a colon
    has no minutes and reads as [NaN]. *)
Theorem timeToMinutes_fields :
  forall h m rest : string,
    hasChar ":" h = false ->
    hasChar ":" m = false ->
    timeToMinutes (h ++ ":" ++ m)%string
    = num_add (num_mul (Number h) (Int 60)) (Number m)
    /\ timeToMinutes (h ++ ":" ++ m ++ ":" ++ rest)%string
       = timeToMinutes (h ++ ":" ++ m)%string
    /\ timeToMinutes h = NaN.
Proof.
  intros h m rest Hh Hm. unfold timeToMinutes.
  change (h ++ ":" ++ m)%string with (h ++ String ":" m)%string.
  change (h ++ ":" ++ m ++ ":" ++ rest)%string
    with (h ++ String ":" (m ++ String ":" rest))%string.
  rewrite !(split_at ":" h) by exact Hh.
  rewrite (split_at ":" m) by exact Hm.
  rewrite (split_without ":" m Hm), (split_without ":" h Hh).
  simpl. repeat split. apply num_add_NaN.
Qed.

Lemma timeToMinutes_fields_witness :
  timeToMinutes ("16" ++ ":" ++ "30")%string
  = num_add (num_mul (Number "16") (Int 60)) (Number "30")
  /\ timeToMinutes ("16" ++ ":" ++ "30" ++ ":" ++ "00")%string
     = timeToMinutes ("16" ++ ":" ++ "30")%string
  /\ timeToMinutes "16" = NaN.
Proof.
  apply (timeToMinutes_fields "16" "30" "00"); reflexivity.
Defined.

Lemma dateAndTime_parts (date time : string) :
  hasChar " " date = false ->
  hasChar " " time = false ->
  dateAndTime (date ++ " " ++ time)%string = (date, Some time).
Proof.
  intros Hd Ht. unfold dateAndTime.
  change (date ++ " " ++ time)%string with (date ++ String " " time)%string.
  rewrite (split_at " " date time Hd), (split_without " " time Ht).
  reflexivity.
Qed.

(** X8. A start time built as date, space, time is taken apart again
    into that date and that time, when neither holds a space: what the
    availability filter writes is what the final sort and the booking
    handler read. *)
Theorem dateAndTime_of_start_time :
  forall date time : string,
    hasChar " " date = false ->
    hasChar " " time = false ->
    dateAndTime (date ++ " " ++ time)%string = (date, Some time)
    /\ dateOf (slotOf (date, time)) = date
    /\ timeOf (slotOf (date, time)) = time.
Proof.
  intros date time Hd Ht.
  unfold dateOf, timeOf, slotOf. cbn [start_time fst snd].
  rewrite (dateAndTime_parts date time Hd Ht). repeat split.
Qed.

Lemma dateAndTime_of_start_time_witness :
  dateAndTime ("2024-01-15" ++ " " ++ "16:00")%string
  = ("2024-01-15", Some "16:00")
  /\ dateOf (slotOf ("2024-01-15", "16:00")) = "2024-01-15"
  /\ timeOf (slotOf ("2024-01-15", "16:00")) = "16:00".
Proof.
  apply (dateAndTime_of_start_time "2024-01-15" "16:00"); reflexivity.
Defined.

(* ================================================================== *)
(** ** Slot availability: edges and composition *)
(* ================================================================== *)

Lemma num_lt_NaN_l (a : num) : num_lt NaN a = false.
Proof. reflexivity. Qed.

Lemma num_lt_NaN_r (a : num) : num_lt a NaN = false.
Proof. destruct a; reflexivity. Qed.

Lemma conflictsWith_malformed (s e : num) (R : interval) :
  malformed R -> conflictsWith s e R = false.
Proof.
  unfold malformed, conflictsWith. intros [H | H]; rewrite H.
  - rewrite num_lt_NaN_l. apply andb_false_r.
  - rewrite num_lt_NaN_r. reflexivity.
Qed.

Lemma scanArray_malformed (s e : num) (a : option (list interval)) :
  Forall malformed (orEmpty a) -> scanArray s e a = true.
Proof.
  intros Hall. apply not_false_is_true. intros Hfalse.
  apply scanArray_false in Hfalse. destruct Hfalse as [R [HR Hc]].
  rewrite Forall_forall in Hall.
  rewrite (conflictsWith_malformed s e R (Hall R HR)) in Hc. discriminate.
Qed.

(** X2. A slot time that does not read as a clock time is reported
    free whatever is reserved, and a group all of whose entries have an
    end that does not read as a clock time constrains no slot. *)
Theorem isTimeSlotFree_unreadable :
  forall (timeSlot : string) (groups : list intervalGroup)
    (serviceDuration : option Z) (g : intervalGroup),
    (timeToMinutes timeSlot = NaN ->
     isTimeSlotFree timeSlot groups serviceDuration = true)
    /\ (Forall malformed (entriesOf g) ->
        isTimeSlotFree timeSlot (g :: groups) serviceDuration
        = isTimeSlotFree timeSlot groups serviceDuration).
Proof.
  intros timeSlot groups serviceDuration g. split.
  - intros Hnan. unfold isTimeSlotFree. rewrite Hnan.
    apply not_false_is_true. intros Hfalse.
    apply scanGroups_false in Hfalse.
    destruct Hfalse as [g' [R [_ [_ Hc]]]].
    unfold conflictsWith in Hc. simpl in Hc. discriminate.
  - intros Hall. unfold isTimeSlotFree. simpl scanGroups.
    unfold entriesOf in Hall. apply Forall_app in Hall.
    destruct Hall as [Hr Hn].
    rewrite (scanArray_malformed _ _ _ Hr), (scanArray_malformed _ _ _ Hn).
    reflexivity.
Qed.

Lemma scanGroups_app (s e : num) (g1 g2 : list intervalGroup) :
  scanGroups s e (g1 ++ g2) = scanGroups s e g1 && scanGroups s e g2.
Proof.
  induction g1 as [|g g1 IH]; simpl; [reflexivity |].
  destruct (scanArray s e (reserved_time g)); [| reflexivity].
  destruct (scanArray s e (not_worked_time g)); [exact IH | reflexivity].
Qed.

Lemma bool_eq_by_false (a b : bool) :
  (a = false <-> b = false) -> a = b.
Proof. destruct a, b; intuition congruence. Qed.

(** X3. The answer for two lists of groups together is the
    conjunction of the answers for each, and only the entries count:
    how they are grouped, and whether an entry is a booking or
    not-worked time, makes no difference. *)
Theorem isTimeSlotFree_groups :
  forall (timeSlot : string) (groups1 groups2 : list intervalGroup)
    (serviceDuration : option Z),
    isTimeSlotFree timeSlot (groups1 ++ groups2) serviceDuration
    = isTimeSlotFree timeSlot groups1 serviceDuration
      && isTimeSlotFree timeSlot groups2 serviceDuration
    /\ isTimeSlotFree timeSlot groups1 serviceDuration
       = isTimeSlotFree timeSlot
           [mkGroup (Some (flat_map entriesOf groups1)) None] serviceDuration.
Proof.
  intros timeSlot groups1 groups2 serviceDuration. unfold isTimeSlotFree.
  split; [apply scanGroups_app |].
  apply bool_eq_by_false. rewrite !scanGroups_false. split.
  - intros [g [R [Hg [HR Hc]]]].
    exists (mkGroup (Some (flat_map entriesOf groups1)) None), R.
    split; [left; reflexivity |]. split; [| exact Hc].
    unfold entriesOf at 1. simpl. rewrite app_nil_r.
    apply in_flat_map. exists g. auto.
  - intros [g [R [[<- | []] [HR Hc]]]].
    unfold entriesOf at 1 in HR. simpl in HR. rewrite app_nil_r in HR.
    apply in_flat_map in HR. destruct HR as [g [Hg HR]].
    exists g, R. auto.
Qed.

Lemma conflictsWith_longer (s : num) (d1 d2 : Z) (R : interval) :
  d1 <= d2 ->
  conflictsWith s (num_add s (Int d1)) R = true ->
  conflictsWith s (num_add s (Int d2)) R = true.
Proof.
  unfold conflictsWith. intros Hd H.
  apply andb_true_iff in H. destruct H as [H1 H2].
  rewrite H1. simpl.
  destruct s as [x|]; [| discriminate H1].
  destruct (timeToMinutes (from R)) as [y|]; [| discriminate H2].
  simpl in *. apply Z.ltb_lt in H2. apply Z.ltb_lt. lia.
Qed.

(** X4. A slot that is free for a service duration is free for every
    shorter one. *)
Theorem isTimeSlotFree_shorter :
  forall (timeSlot : string) (groups : list intervalGroup) (d1 d2 : Z),
    d1 <= d2 ->
    isTimeSlotFree timeSlot groups (Some d2) = true ->
    isTimeSlotFree timeSlot groups (Some d1) = true.
Proof.
  intros timeSlot groups d1 d2 Hd Hfree.
  apply not_false_is_true. intros Hfalse.
  unfold isTimeSlotFree in *. simpl orDefault in *.
  apply scanGroups_false in Hfalse. destruct Hfalse as [g [R [Hg [HR Hc]]]].
  assert (Hc2 := conflictsWith_longer _ d1 d2 R Hd Hc).
  assert (scanGroups (timeToMinutes timeSlot)
            (num_add (timeToMinutes timeSlot) (Int d2)) groups = false)
    by (apply scanGroups_false; eauto).
  congruence.
Qed.

Lemma isTimeSlotFree_shorter_witness :
  isTimeSlotFree "16:55" [Examples.booked1600] (Some 30) = true.
Proof.
  apply (isTimeSlotFree_shorter "16:55" [Examples.booked1600] 30 55).
  - lia.
  - reflexivity.
Defined.

(* ================================================================== *)
(** ** The availability filter *)
(* ================================================================== *)

(** X5. The filter returns the candidates of the matrix that pass its
    three tests (a working day, a start within the window, a free
    stretch), in the order of the matrix and once per occurrence; so it
    never returns more slots than the matrix holds times. *)
Theorem filterAvailableSlots_is_filter :
  forall (weekdayLong : string -> string)
    (timeMatrix : list (string * list string))
    (reservedIntervals : list (string * list intervalGroup))
    (workingHours : workingHoursT) (serviceDuration : option Z),
    filterAvailableSlots weekdayLong timeMatrix reservedIntervals
      workingHours serviceDuration
    = map slotOf
        (filter (offered weekdayLong reservedIntervals workingHours
                   serviceDuration)
           (candidates timeMatrix))
    /\ (List.length
          (filterAvailableSlots weekdayLong timeMatrix reservedIntervals
             workingHours serviceDuration)
        <= List.length (candidates timeMatrix))%nat.
Proof.
  intros weekdayLong timeMatrix reservedIntervals workingHours serviceDuration.
  assert (Heq : filterAvailableSlots weekdayLong timeMatrix reservedIntervals
      workingHours serviceDuration
    = map slotOf
        (filter (offered weekdayLong reservedIntervals workingHours
                   serviceDuration)
           (candidates timeMatrix))).
  { unfold filterAvailableSlots, candidates.
    induction timeMatrix as [|[date times] tm IH]; [reflexivity |].
    simpl flat_map. rewrite filter_app, map_app, <- IH. f_equal.
    simpl fst. simpl snd. clear IH.
    induction times as [|time times IHt].
    - simpl. destruct (negb _); reflexivity.
    - simpl map. simpl filter. unfold offered at 1. simpl fst. simpl snd.
      destruct (existsb (String.eqb (weekdayLong date)) (days workingHours))
        eqn:Hday.
      + simpl negb in *. cbv iota in *. simpl flat_map. rewrite IHt.
        simpl andb.
        destruct (withinWorkingHours workingHours time); simpl;
          [| reflexivity].
        unfold orEmpty.
        destruct (isTimeSlotFree time _ _); reflexivity.
      + simpl negb in *. cbv iota in *. simpl andb. cbv iota. exact IHt. }
  split; [exact Heq |].
  rewrite Heq, length_map. apply filter_length_le.
Qed.

(** X6. A matrix all of whose dates fall on days that are not working
    days yields no slot, whatever the reserved intervals say. *)
Theorem filterAvailableSlots_closed_days :
  forall (weekdayLong : string -> string)
    (timeMatrix : list (string * list string))
    (reservedIntervals : list (string * list intervalGroup))
    (workingHours : workingHoursT) (serviceDuration : option Z),
    (forall date times,
       In (date, times) timeMatrix ->
       existsb (String.eqb (weekdayLong date)) (days workingHours) = false) ->
    filterAvailableSlots weekdayLong timeMatrix reservedIntervals
      workingHours serviceDuration = [].
Proof.
  intros weekdayLong timeMatrix reservedIntervals workingHours
    serviceDuration Hclosed.
  destruct (filterAvailableSlots weekdayLong timeMatrix reservedIntervals
              workingHours serviceDuration) as [|s l] eqn:Hres;
    [reflexivity |].
  assert (Hin : In s (filterAvailableSlots weekdayLong timeMatrix
                        reservedIntervals workingHours serviceDuration))
    by (rewrite Hres; left; reflexivity).
  apply filterAvailableSlots_In in Hin.
  destruct Hin as [date [times [time [Hentry [_ [Hday _]]]]]].
  rewrite (Hclosed date times Hentry) in Hday. discriminate.
Qed.

Lemma filterAvailableSlots_closed_days_witness :
  filterAvailableSlots weekdayLongUTC
    [("2024-01-14", ["16:00"; "17:00"])] [] Examples.weekHours (Some 55)
  = [].
Proof.
  apply (filterAvailableSlots_closed_days weekdayLongUTC
           [("2024-01-14", ["16:00"; "17:00"])] [] Examples.weekHours
           (Some 55)).
  intros date times [[= <- <-] | []]. vm_compute. reflexivity.
Defined.

(** X9. A slot the filter offers passes the availability check of the
    booking handler on the same reserved intervals: the handler takes
    the slot's start time apart into the same date and time and asks
    [isTimeSlotFree] the same question. *)
Theorem offered_slot_passes_booking_check :
  forall (weekdayLong : string -> string) (config : configT)
    (timeMatrix : list (string * list string))
    (reservedIntervals : list (string * list intervalGroup)) (s : slot),
    spaceFree timeMatrix ->
    In s (filterAvailableSlots weekdayLong timeMatrix reservedIntervals
            (workingHours config) (serviceDuration config)) ->
    checkSlot config (snd (dateAndTime (start_time s)))
      (reservedOn (fst (dateAndTime (start_time s)))
         (mkResponse None (Some reservedIntervals)))
    = Ret true.
Proof.
  intros weekdayLong config timeMatrix reservedIntervals s Hfree Hin.
  apply filterAvailableSlots_In in Hin.
  destruct Hin as [date [times [time [Hentry [Htime [_ [_ [Hok ->]]]]]]]].
  destruct (Hfree date times Hentry) as [Hd Ht].
  cbn [start_time].
  rewrite (dateAndTime_parts date time Hd (Ht time Htime)).
  simpl. unfold reservedOn. simpl result.
  unfold isTimeSlotFree in *. simpl orDefault in Hok.
  rewrite Hok. reflexivity.
Qed.

Lemma offered_slot_passes_booking_check_witness :
  checkSlot Examples.config
    (snd (dateAndTime (start_time (mkSlot "2024-01-15 17:00" true None None))))
    (reservedOn
       (fst (dateAndTime
               (start_time (mkSlot "2024-01-15 17:00" true None None))))
       (mkResponse None (Some [(Examples.monday, [Examples.booked1600])])))
  = Ret true.
Proof.
  apply (offered_slot_passes_booking_check weekdayLongUTC Examples.config
           [(Examples.monday, ["16:00"; "17:00"])]
           [(Examples.monday, [Examples.booked1600])]).
  - intros date times [[= <- <-] | []]. split; [reflexivity |].
    intros time [<- | [<- | []]]; reflexivity.
  - vm_compute. left. reflexivity.
Defined.

(* ================================================================== *)
(** ** The end time of a booking *)
(* ================================================================== *)

Ltac read_digit :=
  cbn [NilEmpty.string_of_uint Pos.of_uint_acc Pos.of_uint digitsValue];
  match goal with
  | |- context [digitOf ?c] =>
      let v := eval vm_compute in (digitOf c) in
      change (digitOf c) with v
  end;
  cbv iota.

Lemma digitsValue_pos (d : Decimal.uint) :
  forall acc : positive,
    digitsValue (Zpos acc) (NilEmpty.string_of_uint d)
    = Some (Zpos (Pos.of_uint_acc d acc)).
Proof.
  induction d; intros acc; [reflexivity | ..];
    read_digit; rewrite <- IHd; f_equal; lia.
Qed.

Lemma digitsValue_uint (d : Decimal.uint) :
  digitsValue 0 (NilEmpty.string_of_uint d) = Some (Z.of_N (Pos.of_uint d)).
Proof.
  induction d; [reflexivity | ..]; read_digit;
    [exact IHd | ..];
    cbn [Z.of_N]; rewrite <- digitsValue_pos; f_equal.
Qed.

(** Reading back the decimal print of a natural number. *)
Lemma digitsValue_toString (n : Z) :
  0 <= n -> digitsValue 0 (toString n) = Some n.
Proof.
  intros Hn. unfold toString. destruct n as [|p|p]; [reflexivity | | lia].
  simpl Z.to_int. unfold NilZero.string_of_int.
  assert (Hs : NilZero.string_of_uint (Pos.to_uint p)
               = NilEmpty.string_of_uint (Pos.to_uint p)).
  { pose proof (DecimalPos.Unsigned.to_uint_nonnil p) as Hnil.
    destruct (Pos.to_uint p); [contradiction | reflexivity ..]. }
  rewrite Hs, digitsValue_uint, DecimalPos.Unsigned.of_to. reflexivity.
Qed.

Lemma digitsValue_hasChar (c : ascii) (s : string) :
  digitOf c = None ->
  forall acc v, digitsValue acc s = Some v -> hasChar c s = false.
Proof.
  intros Hc. induction s as [|x s IH]; intros acc v; simpl; [reflexivity |].
  destruct (digitOf x) as [d|] eqn:Hx; [| discriminate].
  intros H. rewrite (IH _ _ H), orb_false_r.
  destruct (Ascii.eqb x c) eqn:E; [| reflexivity].
  apply Ascii.eqb_eq in E. congruence.
Qed.

Lemma digitsValue_padStart2 (s : string) (n : Z) :
  digitsValue 0 s = Some n -> digitsValue 0 (padStart2 s) = Some n.
Proof.
  unfold padStart2. destruct s as [|a [|b s]]; simpl; auto.
Qed.

Lemma Number_padded (n : Z) :
  0 <= n ->
  Number (padStart2 (toString n)) = Int n
  /\ hasChar ":" (padStart2 (toString n)) = false.
Proof.
  intros Hn.
  pose proof (digitsValue_padStart2 _ _ (digitsValue_toString n Hn)) as H.
  split.
  - unfold Number. rewrite H. reflexivity.
  - apply (digitsValue_hasChar ":" _ eq_refl 0 n H).
Qed.

Lemma safeInteger_natural (z : Z) :
  0 <= z <= 9007199254740991 -> safeInteger (Int z) = true.
Proof. intros H. unfold safeInteger. apply Z.leb_le. lia. Qed.

(** X7. When the start reads as hour and minute, both natural
    numbers, the service duration is one too, the minute plus the
    duration stays below 120 and the end of the slot, in minutes, is a
    safe integer, then the end time of lines 739 to 746 reads back as
    the start plus the duration: the interval it describes is the
    interval [isTimeSlotFree] checked. *)
Theorem bookingEndTime_is_slot_end :
  forall (formattedTime : string) (hour minute duration : Z),
    nth_error (map Number (split ":" formattedTime)) 0 = Some (Int hour) ->
    nth_error (map Number (split ":" formattedTime)) 1 = Some (Int minute) ->
    0 <= hour -> 0 <= minute -> 0 <= duration ->
    minute + duration < 120 ->
    hour * 60 + minute + duration <= 9007199254740991 ->
    exists endTime,
      bookingEndTime formattedTime (Some duration) = Some endTime
      /\ timeToMinutes endTime
         = num_add (timeToMinutes formattedTime) (Int duration).
Proof.
  intros formattedTime hour minute duration Hh Hm Hhour Hminute Hduration
    Hsum Hsafe.
  unfold bookingEndTime, timeToMinutes at 2. rewrite Hh, Hm.
  cbn [ofElement ofOption num_add num_mul num_ge].
  assert (Hend : exists eh em,
             (if 60 <=? minute + duration
              then (Int (hour + 1), Int (minute + duration + -60))
              else (Int hour, Int (minute + duration)))
             = (Int eh, Int em)
             /\ 0 <= eh <= 9007199254740991 /\ 0 <= em <= 9007199254740991
             /\ eh * 60 + em = hour * 60 + minute + duration).
  { destruct (60 <=? minute + duration) eqn:Hc.
    - apply Z.leb_le in Hc.
      exists (hour + 1), (minute + duration + -60).
      split; [reflexivity |]. lia.
    - apply Z.leb_gt in Hc.
      exists hour, (minute + duration). split; [reflexivity |]. lia. }
  destruct Hend as [eh [em [-> [Heh [Hem Hsame]]]]].
  cbn [fst snd forallb].
  rewrite !safeInteger_natural by lia. cbn [andb showNum].
  eexists. split; [reflexivity |].
  destruct (Number_padded eh (proj1 Heh)) as [Nh Ch].
  destruct (Number_padded em (proj1 Hem)) as [Nm Cm].
  unfold timeToMinutes.
  change (padStart2 (toString eh) ++ ":" ++ padStart2 (toString em) ++ ":00")%string
    with (padStart2 (toString eh)
          ++ String ":" (padStart2 (toString em) ++ String ":" "00"))%string.
  rewrite (split_at ":" _ _ Ch), (split_at ":" _ _ Cm).
  cbn [map nth_error ofElement]. rewrite Nh, Nm.
  simpl. f_equal. lia.
Qed.

Lemma bookingEndTime_is_slot_end_witness :
  exists endTime,
    bookingEndTime "16:30:00" (Some 55) = Some endTime
    /\ timeToMinutes endTime
       = num_add (timeToMinutes "16:30:00") (Int 55).
Proof.
  apply (bookingEndTime_is_slot_end "16:30:00" 16 30 55);
    try reflexivity; lia.
Defined.

(** With a minute plus duration of 120 or more the single carry leaves
    a minute field of 60 or more: 16:30 with a duration of 120 gives
    17:90:00. *)
Lemma bookingEndTime_single_carry :
  bookingEndTime "16:30:00" (Some 120) = Some "17:90:00".
Proof. vm_compute. reflexivity. Qed.

(* ================================================================== *)
(** ** The availability handler, run after run *)
(* ================================================================== *)

Lemma filterAvailableSlots_available weekdayLong timeMatrix reservedIntervals
  workingHours serviceDuration :
  Forall (fun s => available s = true)
    (filterAvailableSlots weekdayLong timeMatrix reservedIntervals
       workingHours serviceDuration).
Proof.
  apply Forall_forall. intros s Hs. apply filterAvailableSlots_In in Hs.
  destruct Hs as [date [times [time [_ [_ [_ [_ [_ ->]]]]]]]]. reflexivity.
Qed.

Lemma tagSlots_staffed (unitId : Z) (l : list slot) :
  unitId = 4 \/ unitId = 10 ->
  Forall (fun s => available s = true) l ->
  Forall staffed (tagSlots unitId (coachOf unitId) l).
Proof.
  intros Hunit Hall. unfold tagSlots. apply Forall_map.
  eapply Forall_impl; [| exact Hall].
  intros s Hs. unfold staffed. simpl. split; [exact Hs |].
  destruct Hunit as [-> | ->]; [left | right]; split; reflexivity.
Qed.

Ltac slots_facts :=
  repeat first
    [ apply Forall_app; split
    | apply Forall_nil
    | apply tagSlots_wellFormed
    | apply filterAvailableSlots_wellFormed
    | apply (tagSlots_staffed 4); [left; reflexivity |]
    | apply (tagSlots_staffed 10); [right; reflexivity |]
    | apply filterAvailableSlots_available ].

Ltac sort_succeeds :=
  match goal with
  | H : sortBy (compareSlots ?lc) ?l = None |- _ =>
      exfalso;
      let E := fresh in
      destruct (sortBy_succeeds lc l) as [? E];
      [slots_facts | rewrite H in E; discriminate E]
  end.

Lemma availableSlots_stages weekdayLong localeCompare config reqBody :
  always (availableSlotsHandler weekdayLong localeCompare config reqBody)
    (fun t r =>
       exists resp,
         r = inl resp
         /\ (status resp = 200 \/ status resp = 500)
         /\ ((2 < List.length t)%nat -> status resp = 200)
         /\ (List.length (calls t) <= 8)%nat
         /\ delays t = []).
Proof.
  unfold availableSlotsHandler, allowedUnits, collectUnits, unitSlots,
    summaryLoop.
  explore.
  all: try sort_succeeds.
  all: cbn -[filterAvailableSlots tagSlots sortBy app];
    eexists; split; [reflexivity |].
  all: cbn; repeat split; try lia;
    first [left; reflexivity | right; reflexivity | idtac].
Qed.

(** X10. Whatever the upstream service answers, and however the host
    collates, the availability handler answers 200 or 500 and never
    waits; it makes at most eight upstream calls; and once it is past
    the two token calls it cannot fail any more: every run with more
    than two calls answers 200. *)
Theorem availableSlots_fails_only_on_tokens :
  forall (weekdayLong : string -> string)
    (localeCompare : string -> string -> Z) (config : configT)
    (reqBody : list (string * json)) (w : upstream),
    exists resp,
      snd (run w 0
             (availableSlotsHandler weekdayLong localeCompare config reqBody))
      = inl resp
      /\ (status resp = 200 \/ status resp = 500)
      /\ ((2 < List.length
                 (fst (run w 0
                         (availableSlotsHandler weekdayLong localeCompare
                            config reqBody))))%nat
          -> status resp = 200)
      /\ (List.length
            (calls (fst (run w 0
                           (availableSlotsHandler weekdayLong localeCompare
                              config reqBody))))
          <= 8)%nat
      /\ delays (fst (run w 0
                        (availableSlotsHandler weekdayLong localeCompare
                           config reqBody)))
         = [].
Proof.
  intros weekdayLong localeCompare config reqBody w.
  exact (run_always _ _
           (availableSlots_stages weekdayLong localeCompare config reqBody)
           w 0%nat).
Qed.

Lemma acceptedIn_staffed weekdayLong config reqBody localeCompare :
  always (availableSlotsHandler weekdayLong localeCompare config reqBody)
    (fun t r =>
       Forall staffed (List.concat (acceptedIn weekdayLong config t))).
Proof.
  unfold availableSlotsHandler, allowedUnits, collectUnits, unitSlots,
    summaryLoop.
  explore.
  all: cbn -[filterAvailableSlots tagSlots sortBy app coachOf];
    cbn [app List.concat]; rewrite ?app_nil_r.
  all: change (coachOf 4) with "Mason"; change (coachOf 10) with "Josh".
  all: change "Mason" with (coachOf 4); change "Josh" with (coachOf 10).
  all: slots_facts.
Qed.

(** X11. Whenever the availability handler answers 200, each slot of
    the list it returns is marked available and carries unit 4 with
    coach Mason or unit 10 with coach Josh, and the list is ordered by
    date string then time string, in the order of [localeCompare]:
    for every collation, on slots whose dates it tells apart. *)
Theorem availableSlots_answer_sorted_staffed :
  forall (weekdayLong : string -> string)
    (localeCompare : string -> string -> Z) (config : configT)
    (reqBody : list (string * json)) (w : upstream) (sorted : list slot),
    collation localeCompare ->
    snd (run w 0
           (availableSlotsHandler weekdayLong localeCompare config reqBody))
    = inl (mkHttp 200 (SlotsBody sorted)) ->
    datesToldApart localeCompare sorted ->
    Forall staffed sorted
    /\ StronglySorted (notAfter localeCompare) sorted.
Proof.
  intros weekdayLong localeCompare config reqBody w sorted Hlc Hr Hapart.
  pose proof (run_always _ _
                (availableSlots_result weekdayLong localeCompare config reqBody)
                w 0%nat sorted Hr) as Hsort.
  pose proof (sortBy_Permutation _ _ _ Hsort) as Hperm.
  split.
  - eapply Permutation_Forall; [exact Hperm |].
    exact (run_always _ _
             (acceptedIn_staffed weekdayLong config reqBody localeCompare)
             w 0%nat).
  - destruct (sortBy_compareSlots localeCompare Hlc _ sorted
                (acceptedIn_wellFormed weekdayLong config
                   (fst (run w 0
                           (availableSlotsHandler weekdayLong localeCompare
                              config reqBody)))))
      as [Hsorted _]; [| exact Hsort | exact Hsorted].
    intros a b Ha Hb. apply Hapart; eapply Permutation_in; eauto.
Qed.

Lemma availableSlots_answer_sorted_staffed_witness :
  Forall staffed Examples.twoCoachesSlots
  /\ StronglySorted (notAfter codeUnitCompare)
       Examples.twoCoachesSlots.
Proof.
  apply (availableSlots_answer_sorted_staffed weekdayLongUTC
           codeUnitCompare Examples.config Examples.availabilityBody
           Examples.twoCoaches).
  - exact codeUnitCompare_collation.
  - vm_compute. reflexivity.
  - apply codeUnitCompare_datesToldApart.
Defined.

(* ================================================================== *)
(** ** The verification endpoint *)
(* ================================================================== *)

Lemma debugBookingVerification_shape (config : configT)
  (query : list (string * string)) :
  always (debugBookingVerification config query)
    (fun t r =>
       (exists a, r = inl a)
       /\ (List.length t <= 2)%nat
       /\ (blank (lookup "date" query) || blank (lookup "time" query)
           || blank (lookup "service_id" query)
           || blank (lookup "unit_id" query) = true ->
           t = []
           /\ r = inl (DebugError 400
                  "Missing required parameters: date, time, service_id, unit_id"))
       /\ (forall date time day reserved duration,
             r = inl (DebugInfo date time day reserved duration) ->
             reserved = negb (isTimeSlotFree time day duration))).
Proof.
  unfold debugBookingVerification.
  destruct (lookup "date" query) as [date|] eqn:Hdate;
    destruct (lookup "time" query) as [time|] eqn:Htime.
  all: explore.
  all: cbn -[isTimeSlotFree]; repeat split; try (eexists; reflexivity);
    try lia; intros; try discriminate; try congruence.
  all: try match goal with
           | H : inl _ = inl _ |- _ => injection H as <- <- <- <- <-
           end; try reflexivity.
  all: simpl in *; try discriminate.
Qed.

(** X12. The verification endpoint answers 400 without any upstream
    call when date, time, service_id or unit_id is missing or empty; it
    never makes more than two calls and never throws; and when it
    reports on a time, [is_time_reserved] holds exactly when some entry
    of the [day_reserved] it reports overlaps the slot. *)
Theorem debugBookingVerification_report :
  forall (config : configT) (query : list (string * string)) (w : upstream),
    (exists a, snd (run w 0 (debugBookingVerification config query)) = inl a)
    /\ (List.length (fst (run w 0 (debugBookingVerification config query)))
        <= 2)%nat
    /\ (blank (lookup "date" query) || blank (lookup "time" query)
        || blank (lookup "service_id" query)
        || blank (lookup "unit_id" query) = true ->
        run w 0 (debugBookingVerification config query)
        = ([], inl (DebugError 400
                 "Missing required parameters: date, time, service_id, unit_id")))
    /\ (forall date time day reserved duration,
          snd (run w 0 (debugBookingVerification config query))
          = inl (DebugInfo date time day reserved duration) ->
          (reserved = true <->
           exists g R, In g day /\ In R (entriesOf g) /\
             strictOverlap (timeToMinutes time)
               (num_add (timeToMinutes time) (Int (orDefault duration)))
               (timeToMinutes (from R)) (timeToMinutes (to R)))).
Proof.
  intros config query w.
  pose proof (run_always _ _ (debugBookingVerification_shape config query)
                w 0%nat) as [Ha [Hlen [Hblank Hinfo]]].
  split; [exact Ha |]. split; [exact Hlen |]. split.
  - intros Hb. destruct (Hblank Hb) as [Ht Hr].
    destruct (run w 0 (debugBookingVerification config query)) as [t r].
    simpl in *. subst. reflexivity.
  - intros date time day reserved duration Hr.
    rewrite (Hinfo date time day reserved duration Hr).
    rewrite negb_true_iff. unfold isTimeSlotFree.
    rewrite scanGroups_false. split.
    + intros [g [R [Hg [HR Hc]]]]. exists g, R.
      rewrite <- conflictsWith_overlap. auto.
    + intros [g [R [Hg [HR Hc]]]]. exists g, R.
      rewrite conflictsWith_overlap. auto.
Qed.

(* ================================================================== *)
(** ** The booking handler, run after run *)
(* ================================================================== *)

Ltac use_tests :=
  repeat match goal with
         | H : ?x = true |- context [?x] => rewrite H
         | H : ?x = false |- context [?x] => rewrite H
         end.

(** What the run read of the request. *)
Ltac use_request :=
  repeat match goal with
         | H : lookup "start_time" _ = _ |- _ => rewrite H
         | H : dateAndTime _ = _ |- _ => rewrite H
         end.

Lemma bookSession_shape (config : configT) (reqBody : list (string * json)) :
  always (bookSessionHandler config reqBody)
    (fun t r =>
       exists resp,
         r = inl resp
         /\ (status resp = 200 \/ status resp = 400
             \/ status resp = 409 \/ status resp = 500)
         /\ (List.length (bookOutcomes t) <= 3)%nat
         /\ (Forall (eq 1000) (delays t)
             /\ (List.length (delays t) <= 2)%nat)
         /\ (List.length (calls t) <= 10)%nat
         /\ (List.length (filter isAddClient t) <= 1)%nat
         /\ checkedBefore None t = true
         /\ clientBeforeBook false t = true
         /\ (status resp = 200 <-> existsb succeeded (bookOutcomes t) = true)
         /\ (status resp = 400 -> t = [])
         /\ (status resp = 409 -> endsInConflict t = true)
         /\ retryDiscipline config reqBody 0 None t = true
         /\ (failsTwiceThenBooks (bookOutcomes t) = true ->
             readsPassed config reqBody t = true ->
             status resp = 200
             /\ List.length (bookOutcomes t) = 3%nat
             /\ delays t = [1000; 1000])).
Proof.
  unfold bookSessionHandler.
  change (Z.to_nat maxRetries) with 3%nat.
  explore.
  all: repeat match goal with
              | H : negb _ = false |- _ => apply negb_false_iff in H
              | H : negb _ = true |- _ => apply negb_true_iff in H
              end.
  all: eexists; split; [reflexivity |].
  all: repeat apply conj.
  all: unfold readsPassed, passedCheck, bookingSlot; use_request.
  all: unfold isRefusal, refused, isFailedBook, failsTwiceThenBooks,
         failedForNow, transient, succeeded, returnedError, notAvailable;
    cbn -[includes truthy String.append isTimeSlotFree reservedOn];
    use_tests;
    cbn -[includes truthy String.append isTimeSlotFree reservedOn].
  all: repeat split; intros; try discriminate; try reflexivity; try lia;
    repeat constructor.
Qed.

(** X13. Whatever the upstream service answers, the booking handler
    answers, with status 200, 400, 409 or 500: no exception escapes it.
    A run makes at most ten upstream calls, among them at most one
    [addClient] and at most three [book] calls, and waits at most
    twice, 1000 ms each time. *)
Theorem bookSession_always_answers :
  forall (config : configT) (reqBody : list (string * json)) (w : upstream),
    exists resp,
      snd (run w 0 (bookSessionHandler config reqBody)) = inl resp
      /\ (status resp = 200 \/ status resp = 400
          \/ status resp = 409 \/ status resp = 500)
      /\ (List.length
            (calls (fst (run w 0 (bookSessionHandler config reqBody))))
          <= 10)%nat
      /\ (List.length
            (filter isAddClient
               (fst (run w 0 (bookSessionHandler config reqBody))))
          <= 1)%nat
      /\ (List.length
            (bookOutcomes (fst (run w 0 (bookSessionHandler config reqBody))))
          <= 3)%nat
      /\ Forall (eq 1000)
           (delays (fst (run w 0 (bookSessionHandler config reqBody))))
      /\ (List.length
            (delays (fst (run w 0 (bookSessionHandler config reqBody))))
          <= 2)%nat.
Proof.
  intros config reqBody w.
  destruct (run_always _ _ (bookSession_shape config reqBody) w 0%nat)
    as [resp [Hr [Hs [Hb [[Hd Hdn] [Hc [Ha _]]]]]]].
  exists resp. repeat split; assumption.
Qed.

(** X14. In every run of the booking handler each [book] call comes
    straight after an availability read, and none is made before
    [addClient] has returned a client id without error. *)
Theorem bookSession_books_after_check_and_client :
  forall (config : configT) (reqBody : list (string * json)) (w : upstream),
    checkedBefore None (fst (run w 0 (bookSessionHandler config reqBody)))
    = true
    /\ clientBeforeBook false
         (fst (run w 0 (bookSessionHandler config reqBody)))
       = true.
Proof.
  intros config reqBody w.
  destruct (run_always _ _ (bookSession_shape config reqBody) w 0%nat)
    as [resp [_ [_ [_ [_ [_ [_ [Hchk [Hcl _]]]]]]]]].
  split; assumption.
Qed.

(** X15. The booking handler answers 200 exactly in the runs in which
    a [book] call returned a booking without error: it never confirms
    what the upstream service did not accept, and once a booking is
    accepted nothing that follows, the diagnostic read included, turns
    the answer into a failure. *)
Theorem bookSession_confirms_iff_booked :
  forall (config : configT) (reqBody : list (string * json)) (w : upstream),
    exists resp,
      snd (run w 0 (bookSessionHandler config reqBody)) = inl resp
      /\ (status resp = 200 <->
          existsb succeeded
            (bookOutcomes (fst (run w 0 (bookSessionHandler config reqBody))))
          = true).
Proof.
  intros config reqBody w.
  destruct (run_always _ _ (bookSession_shape config reqBody) w 0%nat)
    as [resp [Hr [_ [_ [_ [_ [_ [_ [_ [Hiff _]]]]]]]]]].
  exists resp. split; assumption.
Qed.

(** X16. The booking handler answers 400 only in runs without any
    upstream call, and 409 only in runs that end on an availability
    read or on a [book] call refused as "not available". *)
Theorem bookSession_400_and_409 :
  forall (config : configT) (reqBody : list (string * json)) (w : upstream),
    exists resp,
      snd (run w 0 (bookSessionHandler config reqBody)) = inl resp
      /\ (status resp = 400 ->
          fst (run w 0 (bookSessionHandler config reqBody)) = [])
      /\ (status resp = 409 ->
          endsInConflict (fst (run w 0 (bookSessionHandler config reqBody)))
          = true).
Proof.
  intros config reqBody w.
  destruct (run_always _ _ (bookSession_shape config reqBody) w 0%nat)
    as [resp [Hr [_ [_ [_ [_ [_ [_ [_ [_ [H400 [H409 _]]]]]]]]]]]].
  exists resp. repeat split; assumption.
Qed.

(** X28. The discipline of the retry loop holds in every run of the
    booking handler.  Each [book] call comes straight after an
    availability read that was answered and showed the slot free.
    After a [book] call that was rejected, or returned an error other
    than "not available", the handler waits 1000 ms and starts the
    next attempt with a new availability read, if the attempt was the
    first or the second, and does nothing more if it was the third. *)
Theorem bookSession_retry_discipline :
  forall (config : configT) (reqBody : list (string * json)) (w : upstream),
    retryDiscipline config reqBody 0 None
      (fst (run w 0 (bookSessionHandler config reqBody)))
    = true.
Proof.
  intros config reqBody w.
  destruct (run_always _ _ (bookSession_shape config reqBody) w 0%nat)
    as [resp [_ [_ [_ [_ [_ [_ [_ [_ [_ [_ [_ [Hdiscipline _]]]]]]]]]]]]].
  exact Hdiscipline.
Qed.

(** X29. When the first [book] call of a run failed for now (rejected,
    or answered with an error other than "not available"), a second
    one, if the handler made it, failed for now too, a third one, if
    the handler made it, returned a booking, and every availability
    read the handler made showed the slot free, then the handler did
    make three [book] calls and no more, waited twice, 1000 ms each
    time, and answered 200. *)
Theorem bookSession_fails_twice_then_books :
  forall (config : configT) (reqBody : list (string * json)) (w : upstream),
    failsTwiceThenBooks
      (bookOutcomes (fst (run w 0 (bookSessionHandler config reqBody))))
    = true ->
    readsPassed config reqBody
      (fst (run w 0 (bookSessionHandler config reqBody)))
    = true ->
    (exists resp,
       snd (run w 0 (bookSessionHandler config reqBody)) = inl resp
       /\ status resp = 200)
    /\ List.length
         (bookOutcomes (fst (run w 0 (bookSessionHandler config reqBody))))
       = 3%nat
    /\ delays (fst (run w 0 (bookSessionHandler config reqBody)))
       = [1000; 1000].
Proof.
  intros config reqBody w Hbooks Hreads.
  destruct (run_always _ _ (bookSession_shape config reqBody) w 0%nat)
    as [resp [Hr [_ [_ [_ [_ [_ [_ [_ [_ [_ [_ [_ Hscenario]]]]]]]]]]]]].
  destruct (Hscenario Hbooks Hreads) as [Hs [Hn Hd]].
  split; [exists resp; split; assumption |]. split; assumption.
Qed.

Lemma bookSession_fails_twice_then_books_witness :
  (exists resp,
     snd (run Examples.flakyUpstream 0
            (bookSessionHandler Examples.config Examples.bookingBody))
     = inl resp
     /\ status resp = 200)
  /\ List.length
       (bookOutcomes
          (fst (run Examples.flakyUpstream 0
                  (bookSessionHandler Examples.config Examples.bookingBody))))
     = 3%nat
  /\ delays (fst (run Examples.flakyUpstream 0
                    (bookSessionHandler Examples.config Examples.bookingBody)))
     = [1000; 1000].
Proof.
  apply (bookSession_fails_twice_then_books Examples.config
           Examples.bookingBody Examples.flakyUpstream).
  - vm_compute. reflexivity.
  - vm_compute. reflexivity.
Defined.

(* ================================================================== *)
(** ** Conversion events: sending and bookkeeping *)
(* ================================================================== *)

Section MoreEvents.
Import Conversions.

(** X17. Without a pixel id or without an access token the single
    send posts nothing to the Conversions API; it still records the
    event, as failed, and answers 500. *)
Theorem sendConversionEvent_unconfigured :
  forall env ax eventTime t req l,
    configured (FACEBOOK_PIXEL_ID env) = false
    \/ configured (FACEBOOK_ACCESS_TOKEN env) = false ->
    posted (sendConversionEvent env ax eventTime t req l) = []
    /\ code (replied (sendConversionEvent env ax eventTime t req l)) = 500
    /\ exists rec,
         recentEvents (sendConversionEvent env ax eventTime t req l)
         = rec :: l
         /\ status rec = "failed".
Proof.
  intros env ax eventTime t req l Hconf.
  unfold sendConversionEvent, sendToFacebookAPI.
  destruct (configured (FACEBOOK_PIXEL_ID env)) eqn:Hp; simpl.
  - destruct Hconf as [Hc | Hc]; [discriminate |]. rewrite Hc. simpl.
    repeat split. eexists. split; reflexivity.
  - repeat split. eexists. split; reflexivity.
Qed.

Lemma sendConversionEvent_unconfigured_witness :
  posted (sendConversionEvent (mkEnv None (Some "token") None)
            (AxiosOk None) 0 Examples.noon Examples.leadRequest []) = []
  /\ code (replied (sendConversionEvent (mkEnv None (Some "token") None)
                      (AxiosOk None) 0 Examples.noon Examples.leadRequest []))
     = 500
  /\ exists rec,
       recentEvents (sendConversionEvent (mkEnv None (Some "token") None)
                       (AxiosOk None) 0 Examples.noon Examples.leadRequest [])
       = rec :: []
       /\ status rec = "failed".
Proof.
  apply (sendConversionEvent_unconfigured (mkEnv None (Some "token") None)
           (AxiosOk None) 0 Examples.noon Examples.leadRequest []).
  left. reflexivity.
Defined.

(** X18. Every call of the single send, whether it succeeds or fails,
    puts exactly one record at the front of the list, with the clock
    reading as id and the request's event name; the reply is 200 with
    that id for a record 'success', or 500 with the error message kept
    in a record 'failed'; at most one payload is posted. *)
Theorem sendConversionEvent_records_every_call :
  forall env ax eventTime t req l,
    exists rec rest,
      recentEvents (sendConversionEvent env ax eventTime t req l)
      = rec :: rest
      /\ id rec = toString (now t)
      /\ event_name rec = lookup "event_name" (body req)
      /\ ((status rec = "success"
           /\ replied (sendConversionEvent env ax eventTime t req l)
              = mkReply 200 (EventSent (id rec) (response rec)))
          \/ (status rec = "failed" /\ rest = l
              /\ exists m,
                   error rec = Some m
                   /\ replied (sendConversionEvent env ax eventTime t req l)
                      = mkReply 500
                          (Failed "Failed to send conversion event" m)))
      /\ (List.length (posted (sendConversionEvent env ax eventTime t req l))
          <= 1)%nat.
Proof.
  intros env ax eventTime t req l.
  unfold sendConversionEvent.
  assert (Hsent : (List.length
            (fst (sendToFacebookAPI env ax (eventPayloadOf env req eventTime)))
          <= 1)%nat).
  { unfold sendToFacebookAPI.
    destruct (configured (FACEBOOK_PIXEL_ID env)); simpl; [| lia].
    destruct (configured (FACEBOOK_ACCESS_TOKEN env)); simpl; lia. }
  destruct (sendToFacebookAPI env ax (eventPayloadOf env req eventTime))
    as [sent [responseData | msg]]; simpl in Hsent.
  - set (rec := mkRecord _ _ _ _ responseData _ _).
    destruct (100 <? List.length (rec :: l))%nat eqn:Hcap.
    + exists rec, (removelast l). cbn [recentEvents replied posted].
      assert (l <> []) by (intros ->; discriminate Hcap).
      split; [destruct l; [contradiction | reflexivity] |].
      repeat split; auto.
    + exists rec, l. cbn [recentEvents replied posted].
      repeat split; auto.
  - eexists. exists l. cbn [recentEvents replied posted status error id event_name].
    repeat split; auto. right. repeat split. eexists. split; reflexivity.
Qed.

Lemma removelast_length {A : Type} (l : list A) :
  l <> [] -> List.length l = S (List.length (removelast l)).
Proof.
  destruct l as [| a l]; [contradiction |]. intros _.
  rewrite (app_removelast_last a (l := a :: l)) at 1 by discriminate.
  rewrite length_app. simpl. lia.
Qed.

(** X19. A single send that succeeds on a list of fewer than 100
    records adds its record; on a list of 100 or more it adds its
    record and evicts exactly the oldest, so the length stays what it
    was.  A list of at most 100 records therefore stays at most 100
    across successful single sends. *)
Theorem sendConversionEvent_success_evicts_oldest :
  forall env ax eventTime t req l,
    code (replied (sendConversionEvent env ax eventTime t req l)) = 200 ->
    exists rec,
      ((List.length l < 100)%nat ->
       recentEvents (sendConversionEvent env ax eventTime t req l) = rec :: l)
      /\ ((100 <= List.length l)%nat ->
          recentEvents (sendConversionEvent env ax eventTime t req l)
          = rec :: removelast l
          /\ List.length
               (recentEvents (sendConversionEvent env ax eventTime t req l))
             = List.length l)
      /\ ((List.length l <= 100)%nat ->
          (List.length
             (recentEvents (sendConversionEvent env ax eventTime t req l))
           <= 100)%nat).
Proof.
  intros env ax eventTime t req l.
  unfold sendConversionEvent.
  destruct (sendToFacebookAPI env ax (eventPayloadOf env req eventTime))
    as [sent [responseData | msg]]; [| discriminate].
  intros _. set (rec := mkRecord _ _ _ _ responseData _ _). exists rec.
  cbn [recentEvents].
  destruct (100 <? List.length (rec :: l))%nat eqn:Hcap.
  - apply Nat.ltb_lt in Hcap. simpl in Hcap.
    assert (Hl : l <> []) by (intros ->; simpl in Hcap; lia).
    assert (Hpop : pop (rec :: l) = rec :: removelast l)
      by (destruct l; [contradiction | reflexivity]).
    rewrite Hpop. pose proof (removelast_length l Hl) as Hlen.
    repeat split; intros; simpl; try lia.
  - apply Nat.ltb_ge in Hcap. simpl in Hcap.
    repeat split; intros; simpl; try lia.
Qed.

Lemma sendConversionEvent_success_evicts_oldest_witness :
  exists rec,
    ((List.length (after (repeat Examples.refusedSend 100)) < 100)%nat ->
     recentEvents
       (step Examples.acceptedSend (after (repeat Examples.refusedSend 100)))
     = rec :: after (repeat Examples.refusedSend 100))
    /\ ((100 <= List.length (after (repeat Examples.refusedSend 100)))%nat ->
        recentEvents
          (step Examples.acceptedSend
             (after (repeat Examples.refusedSend 100)))
        = rec :: removelast (after (repeat Examples.refusedSend 100))
        /\ List.length
             (recentEvents
                (step Examples.acceptedSend
                   (after (repeat Examples.refusedSend 100))))
           = List.length (after (repeat Examples.refusedSend 100)))
    /\ ((List.length (after (repeat Examples.refusedSend 100)) <= 100)%nat ->
        (List.length
           (recentEvents
              (step Examples.acceptedSend
                 (after (repeat Examples.refusedSend 100))))
         <= 100)%nat).
Proof.
  apply (sendConversionEvent_success_evicts_oldest Examples.liveEnv
           (AxiosOk None) 1700000000000 Examples.noon Examples.leadRequest
           (after (repeat Examples.refusedSend 100))).
  reflexivity.
Defined.

(** On that list of 100 records the eviction is met: the send leaves
    100 records, its own in front. *)
Lemma sendConversionEvent_full_list :
  List.length (after (repeat Examples.refusedSend 100)) = 100%nat
  /\ List.length
       (recentEvents
          (step Examples.acceptedSend
             (after (repeat Examples.refusedSend 100))))
     = 100%nat
  /\ option_map status
       (hd_error
          (recentEvents
             (step Examples.acceptedSend
                (after (repeat Examples.refusedSend 100)))))
     = Some "success".
Proof. vm_compute. repeat split; reflexivity. Qed.

(** X20. No send ever shortens the list: after any call the list is
    at least as long as before, so a list that has outgrown 100 entries
    never comes back under. *)
Theorem recentEvents_never_shrinks :
  forall (c : call) (l : list eventRecord) (calls : list call),
    (List.length l <= List.length (recentEvents (step c l)))%nat
    /\ (List.length (after calls) <= List.length (after (calls ++ [c])))%nat.
Proof.
  intros c l calls.
  assert (Hstep : forall l',
            (List.length l' <= List.length (recentEvents (step c l')))%nat).
  { intros l'.
    destruct c as [env ax eventTime t req | env ax eventTime ticks req]; simpl.
    - unfold sendConversionEvent.
      destruct (sendToFacebookAPI env ax _) as [sent [responseData | msg]];
        cbn [recentEvents]; [| simpl; lia].
      destruct (100 <? List.length (_ :: l'))%nat; [| simpl; lia].
      destruct l' as [| r l']; [simpl; lia |].
      pose proof (removelast_length (r :: l') ltac:(discriminate)) as Hlen.
      unfold pop. change (removelast (?x :: r :: l'))
        with (x :: removelast (r :: l')).
      simpl List.length in *. lia.
    - unfold sendBatchEvents.
      destruct (lookup "events" (body req)) as [[| | | |[|first others]|]|];
        simpl; try lia.
      destruct (sendToFacebookAPI env ax _) as [sent [responseData | msg]];
        simpl; try lia.
      rewrite (storeBatch_length ticks others 1). simpl. lia. }
  split; [apply Hstep |].
  rewrite after_snoc. apply Hstep.
Qed.

End MoreEvents.

Section MoreBatches.
Import Conversions.

Lemma storeBatch_records (ticks : nat -> tick) (events : list json) :
  forall i : nat,
    map event_name (storeBatch ticks i events [])
    = rev (map (fun event => prop (Some event) "event_name") events)
    /\ Forall (fun r => status r = "success" /\ batch r = true
                        /\ response r = None /\ error r = None)
         (storeBatch ticks i events []).
Proof.
  induction events as [|e rest IH]; intros i; simpl.
  - split; constructor.
  - rewrite storeBatch_app. destruct (IH (S i)) as [Hnames Hall].
    rewrite map_app, Hnames. split; [reflexivity |].
    apply Forall_app. split; [exact Hall |].
    constructor; [| constructor]. repeat split.
Qed.

(** X21. The batch send answers 200, 400 or 500.  It answers 400,
    posting nothing, exactly when [events] is not a non-empty array;
    with 400 or 500 the list is left as it was; with 200 the list gains
    one record per event of the batch, in front and in reverse order of
    the batch, each 'success', marked as batch and without the API's
    response, and one payload with one entry per event was posted. *)
Theorem sendBatchEvents_outcomes :
  forall env ax eventTime ticks req l,
    (code (replied (sendBatchEvents env ax eventTime ticks req l)) = 200
     \/ code (replied (sendBatchEvents env ax eventTime ticks req l)) = 400
     \/ code (replied (sendBatchEvents env ax eventTime ticks req l)) = 500)
    /\ (code (replied (sendBatchEvents env ax eventTime ticks req l)) = 400
        <-> forall first others,
              lookup "events" (body req) <> Some (JArr (first :: others)))
    /\ (code (replied (sendBatchEvents env ax eventTime ticks req l)) = 400 ->
        posted (sendBatchEvents env ax eventTime ticks req l) = [])
    /\ (code (replied (sendBatchEvents env ax eventTime ticks req l)) <> 200 ->
        recentEvents (sendBatchEvents env ax eventTime ticks req l) = l)
    /\ (code (replied (sendBatchEvents env ax eventTime ticks req l)) = 200 ->
        exists events new payload,
          lookup "events" (body req) = Some (JArr events)
          /\ recentEvents (sendBatchEvents env ax eventTime ticks req l)
             = new ++ l
          /\ map event_name new
             = rev (map (fun event => prop (Some event) "event_name") events)
          /\ Forall (fun r => status r = "success" /\ batch r = true
                              /\ response r = None /\ error r = None) new
          /\ posted (sendBatchEvents env ax eventTime ticks req l) = [payload]
          /\ data payload = map (batchEvent req eventTime) events).
Proof.
  intros env ax eventTime ticks req l. unfold sendBatchEvents.
  destruct (lookup "events" (body req)) as [[| | | |[|first others]|]|];
    try (cbn [replied code recentEvents posted];
         repeat split; auto; try discriminate; try congruence;
         intros H; exfalso; revert H; discriminate).
  unfold sendToFacebookAPI.
  destruct (configured (FACEBOOK_PIXEL_ID env));
    [destruct (configured (FACEBOOK_ACCESS_TOKEN env)); [destruct ax as [d | m c [[fm fc]|]] |] |];
    cbn [negb fst snd replied code recentEvents posted].
  all: try (destruct c as [c|]; [destruct (String.eqb c "ECONNABORTED");
              [| destruct (String.eqb c "ENOTFOUND")] |]).
  all: cbn [replied code recentEvents posted].
  all: repeat split; auto; try discriminate; try congruence.
  all: try (intros H; exfalso; first [discriminate H | apply (H first others); reflexivity]).
  intros _. exists (first :: others).
  exists (storeBatch ticks 0 (first :: others) []). eexists.
  destruct (storeBatch_records ticks (first :: others) 0) as [Hn Ha].
  split; [reflexivity |]. split; [apply storeBatch_app |].
  split; [exact Hn |]. split; [exact Ha |]. split; reflexivity.
Qed.

(** X22. In the payload of a batch each event, an object, goes out
    with [action_source] "website" and the server's values for
    [event_source_url], [client_ip_address] and [client_user_agent],
    whatever the event itself said there; its own [event_time] is kept
    when truthy and is the clock's seconds otherwise; every other field
    of the event and of its [user_data] goes out as it came. *)
Theorem batchEvent_fields :
  forall (req : requestT) (eventTime : Z) (fields : object),
    lookup "action_source" (batchEvent req eventTime (JObj fields))
    = Some (JStr "website")
    /\ lookup "event_source_url" (batchEvent req eventTime (JObj fields))
       = Some (JStr (orString (referer req) "https://yourdomain.com"))
    /\ lookup "event_time" (batchEvent req eventTime (JObj fields))
       = (if truthy (lookup "event_time" fields)
          then lookup "event_time" fields
          else Some (JNum (eventTime / 1000)))
    /\ (forall k,
          k <> "user_data" -> k <> "event_source_url" ->
          k <> "action_source" -> k <> "event_time" ->
          lookup k (batchEvent req eventTime (JObj fields)) = lookup k fields)
    /\ exists user_data,
         lookup "user_data" (batchEvent req eventTime (JObj fields))
         = Some (JObj user_data)
         /\ lookup "client_ip_address" user_data = str (ip req)
         /\ lookup "client_user_agent" user_data = str (user_agent req)
         /\ forall k,
              k <> "client_ip_address" -> k <> "client_user_agent" ->
              lookup k user_data = prop (lookup "user_data" fields) k.
Proof.
  intros req eventTime fields. unfold batchEvent.
  cbn [prop spread].
  assert (Hsame : forall k v o, lookup k (assign k v o) = v).
  { intros k v o. destruct v; simpl; [apply lookup_setField_same |].
    induction o as [|[k' v'] r IH]; simpl; [reflexivity |].
    destruct (String.eqb k k') eqn:E; simpl; [exact IH |].
    rewrite E. exact IH. }
  assert (Hother : forall k k' v o,
            k <> k' -> lookup k (assign k' v o) = lookup k o).
  { intros k k' v o Hk. apply lookup_assign_other.
    apply String.eqb_neq. exact Hk. }
  repeat split.
  - rewrite !Hother by discriminate. apply Hsame.
  - rewrite !Hother by discriminate. apply Hsame.
  - rewrite !Hother by discriminate. rewrite Hsame. reflexivity.
  - intros k H1 H2 H3 H4. rewrite !Hother by assumption. reflexivity.
  - eexists. split; [apply Hsame |]. split; [| split].
    + rewrite Hother by discriminate. apply Hsame.
    + apply Hsame.
    + intros k H1 H2. rewrite !Hother by assumption. apply lookup_spread.
Qed.

End MoreBatches.

(* ================================================================== *)
(** ** The status query's limit, and the hashing helpers *)
(* ================================================================== *)

Section MoreStatus.
Import Conversions.

Lemma digitPrefix_digits (s : string) :
  forall acc n, digitsValue acc s = Some n -> digitPrefix s = s.
Proof.
  induction s as [|c s IH]; intros acc n; simpl; [reflexivity |].
  unfold isDigit. destruct (digitOf c) as [d|]; [| discriminate].
  intros H. rewrite (IH _ _ H). reflexivity.
Qed.

Lemma parseInt_digit (c : ascii) (r : string) :
  isDigit c = true -> parseInt (String c r) = parseDigits (String c r).
Proof.
  destruct c as [[] [] [] [] [] [] [] []]; intros H;
    try (vm_compute in H; discriminate H); reflexivity.
Qed.

Lemma toString_digits (n : Z) :
  0 <= n -> exists c r, toString n = String c r /\ isDigit c = true.
Proof.
  intros Hn. pose proof (digitsValue_toString n Hn) as H.
  destruct (toString n) as [|c r] eqn:E.
  - simpl in H. injection H as <-. vm_compute in E. discriminate E.
  - exists c, r. split; [reflexivity |].
    simpl in H. unfold isDigit. destruct (digitOf c); [reflexivity | discriminate].
Qed.

Lemma parseInt_toString (n : Z) :
  0 <= n ->
  parseInt (toString n) = Some n
  /\ parseInt ("-" ++ toString n)%string = Some (- n).
Proof.
  intros Hn. pose proof (digitsValue_toString n Hn) as H.
  destruct (toString_digits n Hn) as [c [r [E Hc]]].
  assert (Hp : parseDigits (toString n) = Some n).
  { unfold parseDigits. rewrite (digitPrefix_digits _ _ _ H).
    rewrite E in *. exact H. }
  split.
  - rewrite E, parseInt_digit by exact Hc. rewrite <- E. exact Hp.
  - change (parseInt ("-" ++ toString n)%string)
      with (option_map Z.opp (parseDigits (toString n))).
    rewrite Hp. reflexivity.
Qed.

(** X23. The status query returns the [n] newest records for
    [?limit=n] (all of them when there are fewer), the list less its
    [n] oldest records for [?limit=-n], the 20 newest when no limit is
    given, and none for an empty limit. *)
Theorem getEventStatus_limit :
  forall (body : object) (referer user_agent ip : option string)
         (l : list eventRecord) (n : Z),
    0 <= n ->
    recentOf (getEventStatus
                (mkRequest body referer user_agent ip (Some (toString n))) l)
    = firstn (Z.to_nat n) l
    /\ List.length
         (recentOf (getEventStatus
                      (mkRequest body referer user_agent ip
                         (Some (toString n))) l))
       = Nat.min (Z.to_nat n) (List.length l)
    /\ (0 < n ->
        recentOf (getEventStatus
                    (mkRequest body referer user_agent ip
                       (Some ("-" ++ toString n)%string)) l)
        = firstn (List.length l - Z.to_nat n) l)
    /\ recentOf (getEventStatus (mkRequest body referer user_agent ip None) l)
       = firstn 20 l
    /\ recentOf (getEventStatus
                   (mkRequest body referer user_agent ip (Some "")) l)
       = [].
Proof.
  intros body referer user_agent ip l n Hn.
  destruct (parseInt_toString n Hn) as [Hpos Hneg].
  unfold getEventStatus, recentOf. cbn [limit content].
  rewrite Hpos, Hneg. unfold slice0.
  assert (Hlt : (n <? 0) = false) by (apply Z.ltb_ge; exact Hn).
  rewrite Hlt. repeat split.
  - apply length_firstn.
  - intros Hpos'. assert (Hlt' : ((- n) <? 0) = true) by (apply Z.ltb_lt; lia).
    rewrite Hlt'. f_equal. lia.
Qed.

Lemma getEventStatus_limit_witness :
  recentOf (getEventStatus
              (mkRequest [] None None None (Some (toString 1)))
              (after [Examples.acceptedSend; Examples.refusedSend]))
  = firstn (Z.to_nat 1) (after [Examples.acceptedSend; Examples.refusedSend])
  /\ List.length
       (recentOf (getEventStatus
                    (mkRequest [] None None None (Some (toString 1)))
                    (after [Examples.acceptedSend; Examples.refusedSend])))
     = Nat.min (Z.to_nat 1)
         (List.length (after [Examples.acceptedSend; Examples.refusedSend]))
  /\ (0 < 1 ->
      recentOf (getEventStatus
                  (mkRequest [] None None None (Some ("-" ++ toString 1)%string))
                  (after [Examples.acceptedSend; Examples.refusedSend]))
      = firstn
          (List.length (after [Examples.acceptedSend; Examples.refusedSend])
           - Z.to_nat 1)
          (after [Examples.acceptedSend; Examples.refusedSend]))
  /\ recentOf (getEventStatus (mkRequest [] None None None None)
                 (after [Examples.acceptedSend; Examples.refusedSend]))
     = firstn 20 (after [Examples.acceptedSend; Examples.refusedSend])
  /\ recentOf (getEventStatus (mkRequest [] None None None (Some ""))
                 (after [Examples.acceptedSend; Examples.refusedSend]))
     = [].
Proof.
  apply (getEventStatus_limit [] None None None
           (after [Examples.acceptedSend; Examples.refusedSend]) 1).
  lia.
Defined.

Section Hashes.

Variable sha256hex : string -> string.

Lemma hashField_other (k k' : string) (hash : string -> string)
  (u p : object) :
  k <> k' -> hashField k' hash u = Some p -> lookup k p = lookup k u.
Proof.
  intros Hk. unfold hashField.
  destruct (lookup k' u) as [[| | |s| |]|]; simpl;
    repeat match goal with
           | |- context [if ?b then _ else _] => destruct b
           end;
    intros H; try discriminate H; injection H as <-; try reflexivity.
  apply lookup_setField_other. apply String.eqb_neq. exact Hk.
Qed.

Lemma hashField_same (k : string) (hash : string -> string) (u p : object) :
  hashField k hash u = Some p ->
  (forall s, lookup k u = Some (JStr s) -> s <> "" ->
             lookup k p = Some (JStr (hash s)))
  /\ (truthy (lookup k u) = false -> p = u).
Proof.
  unfold hashField.
  destruct (lookup k u) as [[| |n|s| |]|] eqn:E; simpl;
    repeat match goal with
           | |- context [if ?b then _ else _] => destruct b eqn:?
           end;
    intros H; try discriminate H; injection H as <-;
    split; try discriminate; try reflexivity; try congruence.
  - intros s' [= <-] Hs. apply String.eqb_eq in Heqb. contradiction.
  - intros s' [= <-] _. apply lookup_setField_same.
Qed.

(** X24. When [prepareUserData] returns, a non-empty string [em] has
    been replaced by the hash of its trimmed lower-case form and a
    non-empty string [ph] by the hash of its digits; an identifier that
    is absent or falsy stays as it was, and so does every other field.
    It throws exactly when [em] or [ph] is truthy and not a string. *)
Theorem prepareUserData_hashes_identifiers :
  forall (userData prepared : object),
    prepareUserData sha256hex userData = Some prepared ->
    (forall s, lookup "em" userData = Some (JStr s) -> s <> "" ->
       lookup "em" prepared
       = Some (JStr (sha256hex (trim (toLowerCase s)))))
    /\ (forall s, lookup "ph" userData = Some (JStr s) -> s <> "" ->
          lookup "ph" prepared = Some (JStr (sha256hex (digitsOnly s))))
    /\ (truthy (lookup "em" userData) = false ->
        lookup "em" prepared = lookup "em" userData)
    /\ (truthy (lookup "ph" userData) = false ->
        lookup "ph" prepared = lookup "ph" userData)
    /\ (forall k, k <> "em" -> k <> "ph" ->
          lookup k prepared = lookup k userData).
Proof.
  intros userData prepared. unfold prepareUserData.
  destruct (hashField "em" (hashEmail sha256hex) userData) as [mid|] eqn:Hem;
    [| discriminate].
  intros Hph.
  destruct (hashField_same _ _ _ _ Hem) as [Em1 Em2].
  destruct (hashField_same _ _ _ _ Hph) as [Ph1 Ph2].
  assert (Hem_ph : lookup "ph" mid = lookup "ph" userData)
    by (apply (hashField_other "ph" "em" _ _ _ ltac:(discriminate) Hem)).
  assert (Hph_em : lookup "em" prepared = lookup "em" mid)
    by (apply (hashField_other "em" "ph" _ _ _ ltac:(discriminate) Hph)).
  repeat split.
  - intros s Hs Hne. rewrite Hph_em. apply (Em1 s Hs Hne).
  - intros s Hs Hne. apply Ph1; [rewrite Hem_ph; exact Hs | exact Hne].
  - intros Hf. rewrite Hph_em, (Em2 Hf). reflexivity.
  - intros Hf. rewrite Ph2 by (rewrite Hem_ph; exact Hf). exact Hem_ph.
  - intros k H1 H2.
    rewrite (hashField_other k "ph" _ _ _ H2 Hph).
    apply (hashField_other k "em" _ _ _ H1 Hem).
Qed.

Lemma hashField_throws (k : string) (hash : string -> string) (u : object) :
  hashField k hash u = None
  <-> truthy (lookup k u) = true
      /\ forall s, lookup k u <> Some (JStr s).
Proof.
  unfold hashField.
  destruct (lookup k u) as [[| |n|s| |]|]; simpl;
    repeat match goal with
           | |- context [if ?b then _ else _] => destruct b eqn:?
           end;
    split; try discriminate; try (intros [H _]; discriminate H);
    try (intros _; split; [reflexivity | discriminate]);
    try (intros [_ H]; exfalso; apply (H s); reflexivity).
  all: intros _; reflexivity.
Qed.

(** X25. [prepareUserData] throws exactly when [em] or [ph] is truthy
    and not a string: a number, [true], an array or an object. *)
Theorem prepareUserData_throws :
  forall userData : object,
    prepareUserData sha256hex userData = None
    <-> (truthy (lookup "em" userData) = true
         /\ forall s, lookup "em" userData <> Some (JStr s))
        \/ (truthy (lookup "ph" userData) = true
            /\ forall s, lookup "ph" userData <> Some (JStr s)).
Proof.
  intros userData. unfold prepareUserData.
  destruct (hashField "em" (hashEmail sha256hex) userData) as [mid|] eqn:Hem.
  - rewrite hashField_throws.
    rewrite (hashField_other "ph" "em" _ _ _ ltac:(discriminate) Hem).
    split; [intros H; right; exact H |].
    intros [H | H]; [| exact H].
    apply (hashField_throws "em" (hashEmail sha256hex)) in H. congruence.
  - split; [| reflexivity]. intros _. left.
    apply (hashField_throws "em" (hashEmail sha256hex)). exact Hem.
Qed.

End Hashes.

Lemma prepareUserData_hashes_identifiers_witness :
  (forall s,
     lookup "em" [("em", JStr " Ada@Example.com"); ("fn", JStr "ada")]
     = Some (JStr s) ->
     s <> "" ->
     lookup "em" [("em", JStr "#ada@example.com"); ("fn", JStr "ada")]
     = Some (JStr (String "#" (trim (toLowerCase s)))))
  /\ (forall s,
        lookup "ph" [("em", JStr " Ada@Example.com"); ("fn", JStr "ada")]
        = Some (JStr s) ->
        s <> "" ->
        lookup "ph" [("em", JStr "#ada@example.com"); ("fn", JStr "ada")]
        = Some (JStr (String "#" (digitsOnly s))))
  /\ (truthy (lookup "em"
                [("em", JStr " Ada@Example.com"); ("fn", JStr "ada")])
      = false ->
      lookup "em" [("em", JStr "#ada@example.com"); ("fn", JStr "ada")]
      = lookup "em" [("em", JStr " Ada@Example.com"); ("fn", JStr "ada")])
  /\ (truthy (lookup "ph"
                [("em", JStr " Ada@Example.com"); ("fn", JStr "ada")])
      = false ->
      lookup "ph" [("em", JStr "#ada@example.com"); ("fn", JStr "ada")]
      = lookup "ph" [("em", JStr " Ada@Example.com"); ("fn", JStr "ada")])
  /\ (forall k, k <> "em" -> k <> "ph" ->
        lookup k [("em", JStr "#ada@example.com"); ("fn", JStr "ada")]
        = lookup k [("em", JStr " Ada@Example.com"); ("fn", JStr "ada")]).
Proof.
  apply (prepareUserData_hashes_identifiers (String "#")
           [("em", JStr " Ada@Example.com"); ("fn", JStr "ada")]
           [("em", JStr "#ada@example.com"); ("fn", JStr "ada")]).
  reflexivity.
Defined.

End MoreStatus.

Section MoreHashes.
Import Conversions.

Variable sha256hex : string -> string.

Lemma toLowerCase_app (a b : string) :
  toLowerCase (a ++ b) = (toLowerCase a ++ toLowerCase b)%string.
Proof. induction a as [|c a IH]; simpl; [| rewrite IH]; reflexivity. Qed.

Lemma lowerChar_space (c : ascii) : isSpace c = true -> lowerChar c = c.
Proof.
  destruct c as [[] [] [] [] [] [] [] []]; intros H;
    try (vm_compute in H; discriminate H); reflexivity.
Qed.

Lemma toLowerCase_blank (a : string) :
  blankString a = true -> toLowerCase a = a.
Proof.
  induction a as [|c a IH]; simpl; [reflexivity |].
  intros H. apply andb_prop in H. destruct H as [Hc Ha].
  rewrite (lowerChar_space c Hc), (IH Ha). reflexivity.
Qed.

Lemma trimStart_app (s b : string) :
  trimStart (s ++ b)
  = if blankString s then trimStart b else (trimStart s ++ b)%string.
Proof.
  induction s as [|c s IH]; simpl; [reflexivity |].
  destruct (isSpace c); simpl; [exact IH | reflexivity].
Qed.

Lemma trimStart_blank (s : string) : blankString s = true -> trimStart s = "".
Proof.
  induction s as [|c s IH]; simpl; [reflexivity |].
  intros H. apply andb_prop in H. destruct H as [Hc Hs].
  rewrite Hc. exact (IH Hs).
Qed.

Lemma append_assoc (a b c : string) :
  ((a ++ b) ++ c = a ++ (b ++ c))%string.
Proof. induction a as [|x a IH]; simpl; [| rewrite IH]; reflexivity. Qed.

Lemma rev_string_acc (s : string) :
  forall acc, rev_string acc s = (rev_string "" s ++ acc)%string.
Proof.
  induction s as [|c s IH]; intros acc; simpl; [reflexivity |].
  rewrite IH, (IH (String c "")). rewrite append_assoc. reflexivity.
Qed.

Lemma rev_string_app (a b : string) :
  rev_string "" (a ++ b) = (rev_string "" b ++ rev_string "" a)%string.
Proof.
  induction a as [|c a IH]; simpl.
  - induction (rev_string "" b) as [|x r IHr]; simpl; [| rewrite <- IHr];
      reflexivity.
  - rewrite rev_string_acc, IH, (rev_string_acc a (String c "")).
    rewrite append_assoc. reflexivity.
Qed.

Lemma blankString_app (a b : string) :
  blankString (a ++ b) = blankString a && blankString b.
Proof.
  induction a as [|c a IH]; simpl; [reflexivity |].
  rewrite IH, andb_assoc. reflexivity.
Qed.

Lemma blankString_rev (s : string) :
  blankString (rev_string "" s) = blankString s.
Proof.
  induction s as [|c s IH]; simpl; [reflexivity |].
  rewrite rev_string_acc, blankString_app, IH. simpl.
  rewrite andb_true_r. apply andb_comm.
Qed.

Lemma trim_blank_around (a s b : string) :
  blankString a = true -> blankString b = true ->
  trim (a ++ s ++ b) = trim s.
Proof.
  intros Ha Hb. unfold trim.
  rewrite (trimStart_app a), Ha, (trimStart_app s).
  destruct (blankString s) eqn:Hs.
  - rewrite (trimStart_blank b Hb), (trimStart_blank s Hs). reflexivity.
  - rewrite rev_string_app, trimStart_app, blankString_rev, Hb. reflexivity.
Qed.

(** X26. [hashEmail] puts the address in lower case and trims it
    before hashing: two addresses that differ only in the case of
    their ASCII letters and in ASCII white space around them have the
    same hash. *)
Theorem hashEmail_normalises :
  forall (before email after_ other : string),
    blankString before = true ->
    blankString after_ = true ->
    toLowerCase email = toLowerCase other ->
    hashEmail sha256hex (before ++ email ++ after_)
    = hashEmail sha256hex other.
Proof.
  intros before email after_ other Ha Hb Hcase. unfold hashEmail.
  rewrite !toLowerCase_app, (toLowerCase_blank _ Ha), (toLowerCase_blank _ Hb).
  rewrite (trim_blank_around _ _ _ Ha Hb), Hcase. reflexivity.
Qed.

Lemma digitsOnly_app (a b : string) :
  digitsOnly (a ++ b) = (digitsOnly a ++ digitsOnly b)%string.
Proof.
  induction a as [|c a IH]; simpl; [reflexivity |].
  destruct (isDigit c); simpl; rewrite IH; reflexivity.
Qed.

Lemma digitsOnly_digitFree (s : string) :
  digitFree s = true -> digitsOnly s = "".
Proof.
  induction s as [|c s IH]; simpl; [reflexivity |].
  destruct (isDigit c); simpl; [discriminate | exact IH].
Qed.

Lemma digitsOnly_length (s : string) :
  (String.length (digitsOnly s) <= String.length s)%nat.
Proof.
  induction s as [|c s IH]; simpl; [lia |].
  destruct (isDigit c); simpl; lia.
Qed.

(** X27. Only the digits of a phone number count: a stretch without
    digits, spaces, dashes or brackets, put anywhere in a number
    changes neither its hash nor whether [isValidPhone] accepts it;
    and a number that is accepted has at least 7 characters. *)
Theorem phone_separators_ignored :
  forall (front separator back : string),
    digitFree separator = true ->
    hashPhone sha256hex (front ++ separator ++ back)
    = hashPhone sha256hex (front ++ back)
    /\ isValidPhone (front ++ separator ++ back) = isValidPhone (front ++ back)
    /\ (isValidPhone (front ++ separator ++ back) = true ->
        (7 <= String.length (front ++ back))%nat).
Proof.
  intros front separator back Hsep.
  assert (Hd : digitsOnly (front ++ separator ++ back)
               = digitsOnly (front ++ back)).
  { rewrite !digitsOnly_app, (digitsOnly_digitFree _ Hsep). reflexivity. }
  unfold hashPhone, isValidPhone. rewrite Hd. repeat split.
  intros H. apply andb_prop in H. destruct H as [H _].
  apply Nat.leb_le in H.
  pose proof (digitsOnly_length (front ++ back)). lia.
Qed.

End MoreHashes.

Lemma hashEmail_normalises_witness :
  Conversions.hashEmail (String "#") ("  " ++ "Ada@Example.COM" ++ " ")
  = Conversions.hashEmail (String "#") "ada@example.com".
Proof.
  apply (hashEmail_normalises (String "#") "  " "Ada@Example.COM" " "
           "ada@example.com"); reflexivity.
Defined.

Lemma phone_separators_ignored_witness :
  Conversions.hashPhone (String "#") ("+44 20" ++ " - " ++ "7946-0958")
  = Conversions.hashPhone (String "#") ("+44 20" ++ "7946-0958")
  /\ Conversions.isValidPhone ("+44 20" ++ " - " ++ "7946-0958")
     = Conversions.isValidPhone ("+44 20" ++ "7946-0958")
  /\ (Conversions.isValidPhone ("+44 20" ++ " - " ++ "7946-0958") = true ->
      (7 <= String.length ("+44 20" ++ "7946-0958"))%nat).
Proof.
  apply (phone_separators_ignored (String "#") "+44 20" " - " "7946-0958").
  reflexivity.
Defined.
